(** * Room matching engine: segment classifier, scorers, filter, matcher

    A shallow embedding of [main.go].  Fixed-width Go integers are carried
    as [Z] with every conversion and wrap-around written out; Go maps are
    [gmap]/[gset] keyed by strings; the two ambient effects of the matcher
    (reading the wall clock and drawing from the shared random generator)
    are threaded through an explicit [World].  A [*Entity] that the code
    dereferences without a test is an [Entity]; the seekers of a batch,
    which the code tests against [nil], are [option Entity]. *)

From Stdlib Require Import ZArith Lia.
From stdpp Require Import base gmap strings list pretty sorting.

Local Open Scope Z_scope.

(** ** Machine integers *)

Definition uint8 (z : Z) : Z := z mod 256.
Definition uint16 (z : Z) : Z := z mod 65536.
Definition int16 (z : Z) : Z := (z + 32768) mod 65536 - 32768.
Definition int64 (z : Z) : Z := (z + 2 ^ 63) mod 2 ^ 64 - 2 ^ 63.

Definition is_uint8 (z : Z) : Prop := 0 <= z < 256.
Definition is_uint16 (z : Z) : Prop := 0 <= z < 65536.
Definition is_int64 (z : Z) : Prop := - 2 ^ 63 <= z < 2 ^ 63.

(** ** Data model *)

(** [ActivityLevel] is a [uint8] with three named values. *)
Definition ActivityLow : Z := 0.
Definition ActivityMedium : Z := 1.
Definition ActivityHigh : Z := 2.

Record Entity := mkEntity {
  ID : string;
  LastMatchedUsers : gmap string Z;   (* map[string]int64 *)
  Blacklist : gset string;            (* map[string]struct{} *)
  MicCount : Z;                       (* uint16 *)
  AudienceCount : Z;                  (* uint16 *)
  WaitSeconds : Z;                    (* uint16 *)
  MatchHistory : Z;                   (* uint16 *)
  ActivityLevel : Z                   (* uint8 *)
}.

Record MatchResult := mkMatchResult {
  Room : Entity;
  ResultScore : Z                     (* int16 *)
}.

Record MatchDetail := mkMatchDetail {
  DetailEntity : Entity;
  Score : Z;
  WaitScore : Z;
  SegmentScore : Z;
  AudienceScore : Z;
  HistoryScore : Z;
  ActivityScore : Z;
  CurrentSegment : Z;
  CandidateSegment : Z;
  Rejected : bool;
  RejectReason : string
}.

Record MatchConfig := mkMatchConfig {
  RecentMatchCooldown : Z;            (* int64 *)
  MaxWaitTime : Z;                    (* int *)
  MinWaitTime : Z                     (* int *)
}.

Definition DefaultMatchConfig : MatchConfig :=
  {| RecentMatchCooldown := 600; MaxWaitTime := 300; MinWaitTime := 20 |}.

(** ** Segment classifier *)

Definition micSegmentMap : list Z :=
  [0; 1; 1; 1; 2; 2; 2; 3; 3; 3; 3; 3; 3; 3; 3; 3].

Definition getMicSegment (micCount : Z) : Z :=
  if micCount =? 0 then 0
  else if micCount <? uint16 (Z.of_nat (length micSegmentMap))
       then default 0 (micSegmentMap !! Z.to_nat micCount)
       else 3.

(** ** Component scorers *)

Definition scoreWaitTime (seconds : Z) (config : MatchConfig) : Z :=
  if seconds <=? uint16 (MinWaitTime config) then 0
  else if seconds <=? 60
       then int16 (uint16 (seconds - uint16 (MinWaitTime config)) / 10)
       else int16 (4 + int16 (uint16 (uint16 (seconds - 60) / 10 * 2))).

(** [diff] is a [uint8]: the subtraction wraps, and the sign test that
    follows it can never succeed. *)
Definition scoreMicSegment (currentSeg candidateSeg waitTime : Z) : Z :=
  if currentSeg =? candidateSeg then 10
  else
    let diff := uint8 (currentSeg - candidateSeg) in
    let diff := if diff <? 0 then uint8 (- diff) else diff in
    if (diff =? 1) && (60 <=? waitTime) then 3
    else if 60 <=? waitTime then 0
    else -999.

Definition audienceDiffScores : list Z := [5; 4; 3; 2; 1; 0].

Definition scoreAudienceDiff (diff : Z) : Z :=
  let diff := if diff <? 0 then int64 (- diff) else diff in
  if diff <? Z.of_nat (length audienceDiffScores)
  then default 0 (audienceDiffScores !! Z.to_nat diff)
  else 0.

Definition scoreMatchHistory (history : Z) : Z :=
  if 10 <=? history then 4
  else if 5 <=? history then 2
  else 0.

Definition activityScores : list Z := [0; 2; 3].

Definition scoreActivity (level : Z) : Z :=
  if level <? uint8 (Z.of_nat (length activityScores))
  then default 0 (activityScores !! Z.to_nat level)
  else 0.

(** ** Eligibility filter *)

(** The reason strings, with [%d] rendered by [pretty]. *)
Definition reasonBlacklisted : string := "用户在黑名单中".

Definition reasonCooldown (elapsed : Z) : string :=
  "冷却时间未满（" +:+ pretty elapsed +:+ "秒前匹配过）".

Definition reasonSegmentGap (currentSeg candidateSeg : Z) : string :=
  "等待时间不足且段位差距过大（当前段位" +:+ pretty currentSeg
    +:+ "，候选段位" +:+ pretty candidateSeg +:+ "）".

Definition reasonSegmentMismatch : string := "段位不匹配".

Definition quickReject (current candidate : Entity) (currentUserID : string)
    (config : MatchConfig) (currentTime : Z) : bool * string :=
  let segmentCheck :=
    if WaitSeconds candidate <? 60 then
      let currentSeg := getMicSegment (MicCount current) in
      let candidateSeg := getMicSegment (MicCount candidate) in
      let diff := uint8 (currentSeg - candidateSeg) in
      let diff := if diff <? 0 then uint8 (- diff) else diff in
      if 1 <? diff then (true, reasonSegmentGap currentSeg candidateSeg)
      else (false, "")
    else (false, "") in
  if decide (currentUserID ∈ Blacklist candidate) then (true, reasonBlacklisted)
  else
    match LastMatchedUsers candidate !! currentUserID with
    | Some lastTime =>
        if int64 (currentTime - lastTime) <? RecentMatchCooldown config
        then (true, reasonCooldown (int64 (currentTime - lastTime)))
        else segmentCheck
    | None => segmentCheck
    end.

(** ** Scoring one pair *)

Definition scoreMatchDetailed (current candidate : Entity) (currentUserID : string)
    (config : MatchConfig) (currentTime : Z) (currentSeg : Z) : MatchDetail :=
  let candidateSeg := getMicSegment (MicCount candidate) in
  let '(rejected, reason) :=
    quickReject current candidate currentUserID config currentTime in
  if rejected then
    {| DetailEntity := candidate; Score := -999;
       WaitScore := 0; SegmentScore := 0; AudienceScore := 0;
       HistoryScore := 0; ActivityScore := 0;
       CurrentSegment := currentSeg; CandidateSegment := candidateSeg;
       Rejected := true; RejectReason := reason |}
  else
    let waitScore := scoreWaitTime (WaitSeconds candidate) config in
    let segmentScore := scoreMicSegment currentSeg candidateSeg (WaitSeconds candidate) in
    if segmentScore <? 0 then
      {| DetailEntity := candidate; Score := -999;
         WaitScore := waitScore; SegmentScore := segmentScore; AudienceScore := 0;
         HistoryScore := 0; ActivityScore := 0;
         CurrentSegment := currentSeg; CandidateSegment := candidateSeg;
         Rejected := true; RejectReason := reasonSegmentMismatch |}
    else
      let audienceScore :=
        scoreAudienceDiff (int64 (AudienceCount current - AudienceCount candidate)) in
      let historyScore := scoreMatchHistory (MatchHistory candidate) in
      let activityScore := scoreActivity (ActivityLevel candidate) in
      {| DetailEntity := candidate;
         Score := int16 (int16 (int16 (int16 (waitScore + segmentScore) + audienceScore)
                                 + historyScore) + activityScore);
         WaitScore := waitScore; SegmentScore := segmentScore;
         AudienceScore := audienceScore;
         HistoryScore := historyScore; ActivityScore := activityScore;
         CurrentSegment := currentSeg; CandidateSegment := candidateSeg;
         Rejected := false; RejectReason := "" |}.

Definition scoreMatch (current candidate : Entity) (currentUserID : string)
    (config : MatchConfig) (currentTime : Z) (currentSeg : Z) : Z :=
  Score (scoreMatchDetailed current candidate currentUserID config currentTime currentSeg).

(** ** The ambient world: wall clock and shared random generator *)

Record World := mkWorld {
  unixClock : nat -> Z;      (* the k-th reading of [time.Now().Unix()] *)
  clockReads : nat;
  randSource : nat -> nat;   (* the k-th raw draw of the generator *)
  randDraws : nat
}.

Inductive Outcome (A : Type) : Type :=
  | Ret (a : A)
  | Panic (msg : string).
Arguments Ret {A} a.
Arguments Panic {A} msg.

Definition M (A : Type) : Type := World -> Outcome A * World.

Definition ret {A} (a : A) : M A := fun w => (Ret a, w).

Definition bind {A B} (c : M A) (k : A -> M B) : M B :=
  fun w => match c w with
           | (Ret a, w') => k a w'
           | (Panic msg, w') => (Panic msg, w')
           end.

Definition panic {A} (msg : string) : M A := fun w => (Panic msg, w).

Notation "'do' x <- c ; k" := (bind c (fun x => k))
  (at level 10, x name, c at level 100, k at level 200).

Definition timeNowUnix : M Z :=
  fun w => (Ret (unixClock w (clockReads w)),
            {| unixClock := unixClock w; clockReads := S (clockReads w);
               randSource := randSource w; randDraws := randDraws w |}).

(** [rand.Intn n] panics for [n <= 0] and otherwise yields a value below [n]. *)
Definition randIntn (n : nat) : M nat :=
  fun w => match n with
           | O => (Panic "invalid argument to Intn", w)
           | S _ => (Ret (randSource w (randDraws w) mod n)%nat,
                     {| unixClock := unixClock w; clockReads := clockReads w;
                        randSource := randSource w; randDraws := S (randDraws w) |})
           end.

(** ** Matcher *)

(** First loop of [matchEntityDetailed]: one detail per candidate, and the
    running maximum over the non-rejected ones. *)
Definition detailStep (current : Entity) (currentUserID : string)
    (config : MatchConfig) (currentTime currentSeg : Z)
    (acc : list MatchDetail * Z) (candidate : Entity) : list MatchDetail * Z :=
  let '(details, maxScore) := acc in
  let detail :=
    scoreMatchDetailed current candidate currentUserID config currentTime currentSeg in
  (details ++ [detail],
   if negb (Rejected detail) && (maxScore <? Score detail) then Score detail
   else maxScore).

(** Second loop of [matchEntityDetailed]. *)
Definition collectStep (maxScore : Z) (candidates : list Entity)
    (detail : MatchDetail) : list Entity :=
  if negb (Rejected detail) && (Score detail =? maxScore)
  then candidates ++ [DetailEntity detail]
  else candidates.

Definition matchEntityDetailed (current : Entity) (pool : list Entity)
    (currentUserID : string) (config : MatchConfig)
    : M (option Entity * list MatchDetail) :=
  if (length pool =? 0)%nat then ret (None, [])
  else
    do currentTime <- timeNowUnix;
    let currentSeg := getMicSegment (MicCount current) in
    let '(details, maxScore) :=
      fold_left (detailStep current currentUserID config currentTime currentSeg)
                pool ([], int16 (-1000)) in
    if maxScore <? 0 then ret (None, details)
    else
      let candidates := fold_left (collectStep maxScore) details [] in
      if (length candidates =? 0)%nat then ret (None, details)
      else
        do i <- randIntn (length candidates);
        match candidates !! i with
        | Some selected => ret (Some selected, details)
        | None => panic "index out of range"
        end.

(** First loop of [matchEntity]. *)
Definition maxStep (current : Entity) (currentUserID : string)
    (config : MatchConfig) (currentTime currentSeg : Z)
    (maxScore : Z) (candidate : Entity) : Z :=
  let score := scoreMatch current candidate currentUserID config currentTime currentSeg in
  if maxScore <? score then score else maxScore.

(** Second loop of [matchEntity]. *)
Definition resultStep (current : Entity) (currentUserID : string)
    (config : MatchConfig) (currentTime currentSeg : Z) (maxScore : Z)
    (results : list MatchResult) (candidate : Entity) : list MatchResult :=
  let score := scoreMatch current candidate currentUserID config currentTime currentSeg in
  if score =? maxScore
  then results ++ [{| Room := candidate; ResultScore := score |}]
  else results.

Definition matchEntity (current : Entity) (pool : list Entity)
    (currentUserID : string) (config : MatchConfig) : M (option Entity) :=
  if (length pool =? 0)%nat then ret None
  else
    do currentTime <- timeNowUnix;
    let currentSeg := getMicSegment (MicCount current) in
    let maxScore :=
      fold_left (maxStep current currentUserID config currentTime currentSeg)
                pool (int16 (-1000)) in
    if maxScore <? 0 then ret None
    else
      let results :=
        fold_left (resultStep current currentUserID config currentTime currentSeg maxScore)
                  pool [] in
      if (length results =? 0)%nat then ret None
      else
        do i <- randIntn (length results);
        match results !! i with
        | Some selected => ret (Some (Room selected))
        | None => panic "index out of range"
        end.

(** ** Batch matcher *)

(** The loop of [batchMatchEntities] from position [i] on; a [nil] room is
    [None]. *)
Fixpoint batchLoop (pool : list Entity) (userIDs : list string)
    (config : MatchConfig) (rooms : list (option Entity)) (i : nat)
    (results : gmap string Entity) : M (gmap string Entity) :=
  match rooms with
  | [] => ret results
  | room :: rest =>
      match room, userIDs !! i with
      | Some room, Some userID =>
          do matched <- matchEntity room pool userID config;
          batchLoop pool userIDs config rest (S i)
            match matched with
            | Some m => <[ID room := m]> results
            | None => results
            end
      | _, _ => batchLoop pool userIDs config rest (S i) results
      end
  end.

Definition batchMatchEntities (rooms : list (option Entity)) (pool : list Entity)
    (userIDs : list string) (config : MatchConfig) : M (gmap string Entity) :=
  if negb (length rooms =? length userIDs)%nat
  then panic "rooms and userIDs length mismatch"
  else batchLoop pool userIDs config rooms 0 ∅.

(** ** Selection as the specification words it

    The maximum is taken over the non-rejected pairs only, and the tie list
    keeps every non-rejected candidate whose total reaches it, in pool
    order. *)

Definition pairDetail (current : Entity) (currentUserID : string)
    (config : MatchConfig) (currentTime : Z) (candidate : Entity) : MatchDetail :=
  scoreMatchDetailed current candidate currentUserID config currentTime
    (getMicSegment (MicCount current)).

Definition accepted (current : Entity) (currentUserID : string)
    (config : MatchConfig) (currentTime : Z) (candidate : Entity) : bool :=
  negb (Rejected (pairDetail current currentUserID config currentTime candidate)).

Definition total (current : Entity) (currentUserID : string)
    (config : MatchConfig) (currentTime : Z) (candidate : Entity) : Z :=
  Score (pairDetail current currentUserID config currentTime candidate).

(** [best pool c]: [c] is not rejected and no non-rejected pool member
    scores more. *)
Definition best (current : Entity) (currentUserID : string)
    (config : MatchConfig) (currentTime : Z) (pool : list Entity)
    (c : Entity) : bool :=
  accepted current currentUserID config currentTime c
  && forallb (fun c' => negb (accepted current currentUserID config currentTime c')
                        || (total current currentUserID config currentTime c'
                            <=? total current currentUserID config currentTime c))
             pool.

Definition tiedAtMaximum (current : Entity) (pool : list Entity)
    (currentUserID : string) (config : MatchConfig) (currentTime : Z) : list Entity :=
  List.filter (best current currentUserID config currentTime pool) pool.

Definition selectAmongTied (current : Entity) (pool : list Entity)
    (currentUserID : string) (config : MatchConfig) : M (option Entity) :=
  match pool with
  | [] => ret None
  | _ :: _ =>
      do currentTime <- timeNowUnix;
      match tiedAtMaximum current pool currentUserID config currentTime with
      | [] => ret None
      | tied => do i <- randIntn (length tied); ret (tied !! i)
      end
  end.

(** The running maximum both matchers keep in their first loop, over the
    candidates [keep] lets through. *)
Definition runningMax {A : Type} (keep : A -> bool) (val : A -> Z)
    (l : list A) (start : Z) : Z :=
  fold_left (fun m c => if keep c && (m <? val c) then val c else m) l start.

(** Per position of a batch, in call order: the seeker's ID with the
    candidate its matcher call returned; [None] for an absent seeker or a
    call that found nothing. *)
Fixpoint batchSelections (pool : list Entity) (userIDs : list string)
    (config : MatchConfig) (rooms : list (option Entity)) (i : nat)
    (w : World) : list (option (string * Entity)) :=
  match rooms with
  | [] => []
  | room :: rest =>
      match room, userIDs !! i with
      | Some room, Some userID =>
          let '(r, w') := matchEntity room pool userID config w in
          match r with
          | Ret matched =>
              (pair (ID room) <$> matched)
                :: batchSelections pool userIDs config rest (S i) w'
          | Panic _ => []
          end
      | _, _ => None :: batchSelections pool userIDs config rest (S i) w
      end
  end.

(** The writes of a batch applied to a result map, in call order. *)
Definition applySelections (sels : list (option (string * Entity)))
    (results : gmap string Entity) : gmap string Entity :=
  fold_left (fun m sel => match sel with
                          | Some (k, c) => <[k := c]> m
                          | None => m
                          end) sels results.

(** ** Activity levels by name *)

Definition ParseActivityLevel (level : string) : Z :=
  if decide (level = "high") then ActivityHigh
  else if decide (level = "medium") then ActivityMedium
  else ActivityLow.

(** The method [ActivityLevel.String]. *)
Definition ActivityLevel_String (a : Z) : string :=
  if a =? ActivityHigh then "high"
  else if a =? ActivityMedium then "medium"
  else "low".

(** ** The ranking shown by [printMatchDetails]

    The data the report computes before it prints: the non-rejected
    details, sorted in place by the two nested loops, and the number of
    rows shown. *)

Definition validCandidates (details : list MatchDetail) : list MatchDetail :=
  fold_left (fun valid detail =>
               if negb (Rejected detail) then valid ++ [detail] else valid)
            details [].

(** Body of the inner loop at index [j]: exchange the neighbours when the
    left one scores less.  Both indices are in range whenever the loops
    reach them. *)
Definition swapStep (v : list MatchDetail) (j : nat) : list MatchDetail :=
  match v !! j, v !! S j with
  | Some a, Some b =>
      if Score a <? Score b then <[S j := a]> (<[j := b]> v) else v
  | _, _ => v
  end.

(** Inner loop for a given [i]: [j] runs over [0, len - 1 - i). *)
Definition bubblePass (v : list MatchDetail) (i : nat) : list MatchDetail :=
  fold_left swapStep (seq 0 (length v - 1 - i)) v.

(** Outer loop: [i] runs over [0, len - 1). *)
Definition sortByScore (v : list MatchDetail) : list MatchDetail :=
  fold_left bubblePass (seq 0 (length v - 1)) v.

(** One pass written by recursion on the list: the first [k] neighbour
    pairs, left to right.  [bubblePass_bubble] below shows it is what the
    inner loop computes. *)
Fixpoint bubble (k : nat) (l : list MatchDetail) : list MatchDetail :=
  match k, l with
  | S k', a :: b :: rest =>
      if Score a <? Score b then b :: bubble k' (a :: rest)
      else a :: bubble k' (b :: rest)
  | _, _ => l
  end.

(** Nonincreasing order of totals. *)
Definition scoreGe (a b : MatchDetail) : Prop := Score b <= Score a.

Definition displayCount (v : list MatchDetail) : nat :=
  if (5 <? length v)%nat then 5%nat else length v.

Definition displayedCandidates (details : list MatchDetail) : list MatchDetail :=
  let sorted := sortByScore (validCandidates details) in
  take (displayCount sorted) sorted.

(** The histogram of reasons [printMatchDetails] builds when nothing was
    matched; a missing key reads as 0, as in Go. *)
Definition rejectReasons (details : list MatchDetail) : gmap string Z :=
  fold_left (fun (m : gmap string Z) detail =>
               if Rejected detail
               then <[RejectReason detail := default 0 (m !! RejectReason detail) + 1]> m
               else m)
            details ∅.

(** The counting loop of [main]: rejected and valid details. *)
Definition countOutcomes (details : list MatchDetail) : Z * Z :=
  fold_left (fun '(rejectedCount, validCount) detail =>
               if Rejected detail then (rejectedCount + 1, validCount)
               else (rejectedCount, validCount + 1))
            details (0, 0).

(** * Properties *)

(** ** Machine integers *)

Lemma uint8_id z : is_uint8 z -> uint8 z = z.
Proof. unfold is_uint8, uint8. intros H. apply Z.mod_small. lia. Qed.

Lemma uint16_id z : is_uint16 z -> uint16 z = z.
Proof. unfold is_uint16, uint16. intros H. apply Z.mod_small. lia. Qed.

Lemma int16_id z : -32768 <= z < 32768 -> int16 z = z.
Proof. unfold int16. intros H. rewrite Z.mod_small; lia. Qed.

Lemma int64_id z : is_int64 z -> int64 z = z.
Proof. unfold is_int64, int64. intros H. rewrite Z.mod_small; lia. Qed.

Lemma uint8_range z : 0 <= uint8 z < 256.
Proof. unfold uint8. apply Z.mod_pos_bound. lia. Qed.

Lemma uint16_range z : 0 <= uint16 z < 65536.
Proof. unfold uint16. apply Z.mod_pos_bound. lia. Qed.

(** ** Segment classifier *)

Lemma getMicSegment_bands c :
  getMicSegment c =
    if c <=? 0 then 0 else if c <=? 3 then 1 else if c <=? 6 then 2 else 3.
Proof.
  unfold getMicSegment.
  change (uint16 (Z.of_nat (length micSegmentMap))) with 16.
  destruct (Z.eqb_spec c 0) as [->|Hne]; [reflexivity|].
  destruct (Z.ltb_spec c 16) as [Hlt|Hge].
  - destruct (Z.leb_spec c 0) as [Hneg|Hpos].
    + replace (Z.to_nat c) with 0%nat by lia. reflexivity.
    + assert (Hc : exists n : nat, c = Z.of_nat n /\ (n < 16)%nat).
      { exists (Z.to_nat c). lia. }
      destruct Hc as (n & -> & Hn). rewrite Nat2Z.id.
      do 16 (destruct n as [|n]; [try reflexivity; lia|]). lia.
  - repeat match goal with
           | |- context [?a <=? ?b] => destruct (Z.leb_spec a b); [lia|]
           end. reflexivity.
Qed.

(** C6. The segment classifier is nondecreasing in the occupancy count,
    gives tier 0 at occupancy 0 and tier 3 from occupancy 15 on. *)
Theorem getMicSegment_monotone_saturating :
  (forall c1 c2 : Z, c1 <= c2 -> getMicSegment c1 <= getMicSegment c2)
  /\ getMicSegment 0 = 0
  /\ (forall c : Z, 15 <= c -> getMicSegment c = 3).
Proof.
  split; [|split].
  - intros c1 c2 Hle. rewrite !getMicSegment_bands.
    repeat match goal with
           | |- context [?a <=? ?b] => destruct (Z.leb_spec a b)
           end; lia.
  - reflexivity.
  - intros c Hc. rewrite getMicSegment_bands.
    repeat match goal with
           | |- context [?a <=? ?b] => destruct (Z.leb_spec a b); [lia|]
           end. reflexivity.
Qed.

Lemma getMicSegment_monotone_saturating_witness :
  (3 <= 4 /\ getMicSegment 3 <= getMicSegment 4)
  /\ (15 <= 15 /\ getMicSegment 15 = 3).
Proof.
  destruct getMicSegment_monotone_saturating as (Hmono & _ & Hsat).
  split; (split; [lia|]).
  - apply Hmono. lia.
  - apply Hsat. lia.
Defined.

(** ** Wait-time score *)

Lemma scoreWaitTime_cases s cfg :
  is_uint16 s ->
  scoreWaitTime s cfg =
    if s <=? uint16 (MinWaitTime cfg) then 0
    else if s <=? 60 then (s - uint16 (MinWaitTime cfg)) / 10
    else 4 + (s - 60) / 10 * 2.
Proof.
  intros Hs. unfold scoreWaitTime, is_uint16 in *.
  pose proof (uint16_range (MinWaitTime cfg)) as Hm.
  destruct (Z.leb_spec s (uint16 (MinWaitTime cfg))); [reflexivity|].
  destruct (Z.leb_spec s 60).
  - rewrite (uint16_id (s - _)) by (unfold is_uint16; lia).
    apply int16_id. Z.div_mod_to_equations. lia.
  - rewrite (uint16_id (s - 60)) by (unfold is_uint16; lia).
    rewrite uint16_id by (unfold is_uint16; Z.div_mod_to_equations; lia).
    rewrite (int16_id (_ * 2)) by (Z.div_mod_to_equations; lia).
    apply int16_id. Z.div_mod_to_equations. lia.
Qed.

(** The wait score never leaves [0, 13110], whatever the arguments. *)
Lemma scoreWaitTime_range s cfg : 0 <= scoreWaitTime s cfg <= 13110.
Proof.
  unfold scoreWaitTime.
  pose proof (uint16_range (MinWaitTime cfg)) as Hm.
  destruct (Z.leb_spec s (uint16 (MinWaitTime cfg))); [lia|].
  destruct (Z.leb_spec s 60).
  - rewrite (uint16_id (s - _)) by (unfold is_uint16; lia).
    rewrite int16_id; Z.div_mod_to_equations; lia.
  - pose proof (uint16_range (s - 60)) as Hd.
    rewrite (uint16_id (_ * 2)) by (unfold is_uint16; Z.div_mod_to_equations; lia).
    rewrite (int16_id (_ * 2)) by (Z.div_mod_to_equations; lia).
    rewrite int16_id; Z.div_mod_to_equations; lia.
Qed.

(** C5, as stated, fails: with a minimum wait of 10 the score is 5 after
    60 seconds and 4 after 61. *)
Lemma scoreWaitTime_drop_after_60 :
  let cfg := {| RecentMatchCooldown := 600; MaxWaitTime := 300; MinWaitTime := 10 |} in
  MinWaitTime cfg < 60 /\ 60 <= 61
  /\ ~ (scoreWaitTime 60 cfg <= scoreWaitTime 61 cfg).
Proof. vm_compute. repeat split; try discriminate. intros H. apply H. reflexivity. Qed.

(** C5, amended.  For a minimum wait within [0, 65535] the wait score is 0
    up to the minimum wait, gains 1 per ten seconds up to 60 seconds and 2
    per ten seconds beyond 60; it is nondecreasing in the wait time as soon
    as the minimum wait is at least 11 (the default is 20). *)
Theorem scoreWaitTime_shape (cfg : MatchConfig) :
  0 <= MinWaitTime cfg <= 65535 ->
  (forall s, is_uint16 s -> s <= MinWaitTime cfg -> scoreWaitTime s cfg = 0)
  /\ (forall s, MinWaitTime cfg <= s -> s + 10 <= 60 ->
        scoreWaitTime (s + 10) cfg = scoreWaitTime s cfg + 1)
  /\ (forall s, MinWaitTime cfg < s -> 60 < s -> s + 10 <= 65535 ->
        scoreWaitTime (s + 10) cfg = scoreWaitTime s cfg + 2)
  /\ (11 <= MinWaitTime cfg ->
      forall s1 s2, is_uint16 s1 -> is_uint16 s2 -> s1 <= s2 ->
        scoreWaitTime s1 cfg <= scoreWaitTime s2 cfg).
Proof.
  intros Hm.
  assert (Hu : uint16 (MinWaitTime cfg) = MinWaitTime cfg)
    by (apply uint16_id; unfold is_uint16; lia).
  repeat split.
  - intros s Hs Hle. rewrite scoreWaitTime_cases, Hu by assumption.
    destruct (Z.leb_spec s (MinWaitTime cfg)); [reflexivity | lia].
  - intros s Hlo Hhi.
    rewrite !scoreWaitTime_cases, Hu by (unfold is_uint16; lia).
    repeat match goal with
           | |- context [?a <=? ?b] => destruct (Z.leb_spec a b); try lia
           end; Z.div_mod_to_equations; lia.
  - intros s Hlo H60 Hhi.
    rewrite !scoreWaitTime_cases, Hu by (unfold is_uint16; lia).
    repeat match goal with
           | |- context [?a <=? ?b] => destruct (Z.leb_spec a b); try lia
           end; Z.div_mod_to_equations; lia.
  - intros H11 s1 s2 Hs1 Hs2 Hle.
    rewrite !scoreWaitTime_cases, Hu by assumption.
    unfold is_uint16 in *.
    repeat match goal with
           | |- context [?a <=? ?b] => destruct (Z.leb_spec a b); try lia
           end; Z.div_mod_to_equations; lia.
Qed.

Lemma scoreWaitTime_shape_witness :
  0 <= MinWaitTime DefaultMatchConfig <= 65535
  /\ scoreWaitTime 20 DefaultMatchConfig = 0
  /\ scoreWaitTime 40 DefaultMatchConfig = scoreWaitTime 30 DefaultMatchConfig + 1
  /\ scoreWaitTime 80 DefaultMatchConfig = scoreWaitTime 70 DefaultMatchConfig + 2
  /\ scoreWaitTime 60 DefaultMatchConfig <= scoreWaitTime 61 DefaultMatchConfig.
Proof.
  assert (Hcfg : 0 <= MinWaitTime DefaultMatchConfig <= 65535) by (simpl; lia).
  destruct (scoreWaitTime_shape DefaultMatchConfig Hcfg) as (Hz & Hs1 & Hs2 & Hmono).
  split; [exact Hcfg|]. split; [|split; [|split]].
  - apply Hz; [unfold is_uint16|simpl]; lia.
  - apply (Hs1 30); simpl; lia.
  - apply (Hs2 70); simpl; lia.
  - apply Hmono; [simpl|unfold is_uint16..|]; lia.
Defined.

(** ** Segment-consistency score *)

Lemma scoreMicSegment_tiers s c w :
  0 <= s <= 3 -> 0 <= c <= 3 ->
  scoreMicSegment s c w =
    if s =? c then 10
    else if w <? 60 then -999
    else if s =? c + 1 then 3
    else 0.
Proof.
  intros Hs Hc.
  assert (Hs' : s = 0 \/ s = 1 \/ s = 2 \/ s = 3) by lia.
  assert (Hc' : c = 0 \/ c = 1 \/ c = 2 \/ c = 3) by lia.
  unfold scoreMicSegment.
  destruct (Z.ltb_spec w 60), (Z.leb_spec 60 w); try lia;
    destruct Hs' as [->|[->|[->| ->]]], Hc' as [->|[->|[->| ->]]]; reflexivity.
Qed.

(** C1, code defect.  A seeker one tier below a candidate that has waited
    60 seconds scores 0, while the mirrored pair scores 3: the tier
    difference is taken in [uint8], where 0 - 1 is 255. *)
Theorem scoreMicSegment_gap_one_asymmetric :
  scoreMicSegment 0 1 60 = 0 /\ scoreMicSegment 1 0 60 = 3.
Proof. split; reflexivity. Qed.

Lemma scoreMicSegment_values s c w :
  scoreMicSegment s c w = 10 \/ scoreMicSegment s c w = 3
  \/ scoreMicSegment s c w = 0 \/ scoreMicSegment s c w = -999.
Proof.
  unfold scoreMicSegment.
  destruct (s =? c); [auto|]. cbv zeta.
  destruct (_ && _); [auto|]. destruct (60 <=? w); auto.
Qed.

(** ** Remaining scorers *)

Lemma scoreAudienceDiff_range diff : 0 <= scoreAudienceDiff diff <= 5.
Proof.
  unfold scoreAudienceDiff. cbv zeta.
  destruct (_ <? Z.of_nat _); [|lia].
  destruct (Z.to_nat _) as [|[|[|[|[|[|n]]]]]]; simpl; lia.
Qed.

Lemma scoreMatchHistory_range history : 0 <= scoreMatchHistory history <= 4.
Proof.
  unfold scoreMatchHistory.
  destruct (10 <=? history); [lia|]. destruct (5 <=? history); lia.
Qed.

Lemma scoreActivity_range level : 0 <= scoreActivity level <= 3.
Proof.
  unfold scoreActivity.
  destruct (_ <? _); [|lia].
  destruct (Z.to_nat _) as [|[|[|n]]]; simpl; lia.
Qed.

(** ** Eligibility filter *)

Lemma reason_of_rejection (a b : string) : (true, a) = (true, b) -> a = b.
Proof. intros H. exact (f_equal snd H). Qed.

Lemma reasonBlacklisted_not_cooldown n : reasonBlacklisted <> reasonCooldown n.
Proof. unfold reasonBlacklisted, reasonCooldown. simpl. discriminate. Qed.

Lemma reasonSegmentGap_not_cooldown a b n : reasonSegmentGap a b <> reasonCooldown n.
Proof. unfold reasonSegmentGap, reasonCooldown. simpl. discriminate. Qed.

Lemma reasonCooldown_not_segmentGap a b n : reasonCooldown n <> reasonSegmentGap a b.
Proof. intros H. symmetry in H. revert H. apply reasonSegmentGap_not_cooldown. Qed.

Lemma reasonBlacklisted_not_segmentGap a b : reasonBlacklisted <> reasonSegmentGap a b.
Proof. unfold reasonBlacklisted, reasonSegmentGap. simpl. discriminate. Qed.

(** C2, code defect.  A seeker in tier 0 facing a tier-1 candidate that has
    waited 10 seconds is turned away by the segment-gap check although the
    tiers differ by one; the mirrored pair passes.  Same [uint8] difference
    as in [scoreMicSegment]. *)
Theorem quickReject_gap_one_asymmetric :
  let low := mkEntity "low" ∅ ∅ 0 50 10 0 ActivityLow in
  let high := mkEntity "high" ∅ ∅ 1 50 10 0 ActivityLow in
  getMicSegment (MicCount low) = 0 /\ getMicSegment (MicCount high) = 1
  /\ quickReject low high "seeker" DefaultMatchConfig 1000
     = (true, reasonSegmentGap 0 1)
  /\ quickReject high low "seeker" DefaultMatchConfig 1000 = (false, "").
Proof. vm_compute. repeat split. Qed.

(** C4, as stated, fails: a candidate that blacklists the seeker and met
    it one second ago is rejected for the blacklist, not for cooldown. *)
Lemma quickReject_blacklist_precedes_cooldown :
  let seeker := mkEntity "s" ∅ ∅ 3 50 80 0 ActivityLow in
  let cand := mkEntity "c" {[ "seeker" := 999 ]} {[ "seeker" ]} 3 50 80 0 ActivityLow in
  LastMatchedUsers cand !! "seeker" = Some 999
  /\ 1000 - 999 < RecentMatchCooldown DefaultMatchConfig
  /\ ~ (exists n, quickReject seeker cand "seeker" DefaultMatchConfig 1000
                  = (true, reasonCooldown n)).
Proof.
  cbv zeta. split; [|split].
  - vm_compute. reflexivity.
  - simpl. lia.
  - intros [n Hn].
    assert (Hq : quickReject (mkEntity "s" ∅ ∅ 3 50 80 0 ActivityLow)
                   (mkEntity "c" {[ "seeker" := 999 ]} {[ "seeker" ]} 3 50 80 0 ActivityLow)
                   "seeker" DefaultMatchConfig 1000
                 = (true, reasonBlacklisted)) by (vm_compute; reflexivity).
    rewrite Hq in Hn. apply reason_of_rejection in Hn.
    exact (reasonBlacklisted_not_cooldown n Hn).
Qed.

(** C4, amended.  With an entry [lastTime] for the seeker, the filter
    rejects for cooldown exactly when the candidate does not blacklist the
    seeker and the [int64] difference [currentTime - lastTime] is below the
    cooldown; the reason then carries that difference.  An elapsed time
    equal to the cooldown is not a cooldown rejection, and neither is
    anything when the candidate has no entry for the seeker. *)
Theorem quickReject_cooldown (current candidate : Entity) (uid : string)
    (config : MatchConfig) (now : Z) :
  (forall lastTime, LastMatchedUsers candidate !! uid = Some lastTime ->
     ((exists n, quickReject current candidate uid config now = (true, reasonCooldown n))
      <-> (uid ∉ Blacklist candidate)
          /\ int64 (now - lastTime) < RecentMatchCooldown config)
     /\ ((uid ∉ Blacklist candidate) ->
         int64 (now - lastTime) < RecentMatchCooldown config ->
         quickReject current candidate uid config now
         = (true, reasonCooldown (int64 (now - lastTime))))
     /\ (is_int64 (now - lastTime) ->
         now - lastTime = RecentMatchCooldown config ->
         forall n, quickReject current candidate uid config now
                   <> (true, reasonCooldown n)))
  /\ (LastMatchedUsers candidate !! uid = None ->
      forall n, quickReject current candidate uid config now
                <> (true, reasonCooldown n)).
Proof.
  assert (Hseg : forall n,
    (if WaitSeconds candidate <? 60
     then
       let currentSeg := getMicSegment (MicCount current) in
       let candidateSeg := getMicSegment (MicCount candidate) in
       let diff := uint8 (currentSeg - candidateSeg) in
       let diff := if diff <? 0 then uint8 (- diff) else diff in
       if 1 <? diff then (true, reasonSegmentGap currentSeg candidateSeg)
       else (false, "")
     else (false, "")) <> (true, reasonCooldown n)).
  { intros n. cbv zeta. destruct (_ <? 60); [|discriminate].
    destruct (1 <? _); [|discriminate].
    intros H. apply reason_of_rejection in H.
    exact (reasonSegmentGap_not_cooldown _ _ _ H). }
  assert (Hgen : forall lastTime,
    LastMatchedUsers candidate !! uid = Some lastTime ->
    (exists n, quickReject current candidate uid config now = (true, reasonCooldown n))
    <-> (uid ∉ Blacklist candidate)
        /\ int64 (now - lastTime) < RecentMatchCooldown config).
  { intros lastTime Hlast. unfold quickReject. cbv zeta. rewrite Hlast.
    destruct (decide (uid ∈ Blacklist candidate)) as [Hin|Hnin].
    - split.
      + intros [n Hn]. apply reason_of_rejection in Hn.
        destruct (reasonBlacklisted_not_cooldown n Hn).
      + intros [Hnin _]. contradiction.
    - destruct (Z.ltb_spec (int64 (now - lastTime)) (RecentMatchCooldown config)).
      + split; [intros _; split; assumption | intros _; eexists; reflexivity].
      + split.
        * intros [n Hn]. destruct (Hseg n Hn).
        * intros [_ Hlt]. lia. }
  split.
  - intros lastTime Hlast. split; [exact (Hgen lastTime Hlast)|split].
    + intros Hnin Hlt. unfold quickReject. cbv zeta. rewrite Hlast.
      destruct (decide (uid ∈ Blacklist candidate)); [contradiction|].
      destruct (Z.ltb_spec (int64 (now - lastTime)) (RecentMatchCooldown config));
        [reflexivity | lia].
    + intros Hrange Heq n Hn.
      assert (Hex : exists n, quickReject current candidate uid config now
                              = (true, reasonCooldown n)) by (exists n; exact Hn).
      apply (Hgen lastTime Hlast) in Hex. destruct Hex as [_ Hlt].
      rewrite int64_id in Hlt by assumption. lia.
  - intros Hnone n. unfold quickReject. cbv zeta. rewrite Hnone.
    destruct (decide (uid ∈ Blacklist candidate)).
    + intros H. apply reason_of_rejection in H.
      exact (reasonBlacklisted_not_cooldown n H).
    + apply Hseg.
Qed.

Lemma quickReject_cooldown_witness :
  let seeker := mkEntity "s" ∅ ∅ 3 50 80 0 ActivityLow in
  let cand := mkEntity "c" {[ "seeker" := 401 ]} ∅ 3 50 80 0 ActivityLow in
  LastMatchedUsers cand !! "seeker" = Some 401
  /\ ("seeker" ∉ Blacklist cand)
  /\ int64 (1000 - 401) < RecentMatchCooldown DefaultMatchConfig
  /\ quickReject seeker cand "seeker" DefaultMatchConfig 1000
     = (true, reasonCooldown (int64 (1000 - 401))).
Proof.
  cbv zeta.
  assert (Hlast : LastMatchedUsers
                    (mkEntity "c" {[ "seeker" := 401 ]} ∅ 3 50 80 0 ActivityLow)
                    !! "seeker" = Some 401) by (vm_compute; reflexivity).
  assert (Hnin : "seeker" ∉ Blacklist
                    (mkEntity "c" {[ "seeker" := 401 ]} ∅ 3 50 80 0 ActivityLow))
    by (simpl; apply not_elem_of_empty).
  assert (Hlt : int64 (1000 - 401) < RecentMatchCooldown DefaultMatchConfig)
    by (vm_compute; reflexivity).
  split; [exact Hlast|]. split; [exact Hnin|]. split; [exact Hlt|].
  exact (proj1 (proj2 (proj1 (quickReject_cooldown
                        (mkEntity "s" ∅ ∅ 3 50 80 0 ActivityLow)
                        (mkEntity "c" {[ "seeker" := 401 ]} ∅ 3 50 80 0 ActivityLow)
                        "seeker" DefaultMatchConfig 1000) 401 Hlast)) Hnin Hlt).
Defined.

(** ** Scoring one pair *)

Lemma scoreMatchDetailed_entity cur cand uid cfg now seg :
  DetailEntity (scoreMatchDetailed cur cand uid cfg now seg) = cand.
Proof.
  unfold scoreMatchDetailed. cbv zeta.
  destruct (quickReject _ _ _ _ _) as [[] reason]; [reflexivity|].
  destruct (_ <? 0); reflexivity.
Qed.

Lemma scoreMatchDetailed_rejected cur cand uid cfg now seg :
  Rejected (scoreMatchDetailed cur cand uid cfg now seg) = true ->
  Score (scoreMatchDetailed cur cand uid cfg now seg) = -999.
Proof.
  unfold scoreMatchDetailed. cbv zeta.
  destruct (quickReject _ _ _ _ _) as [[] reason]; [reflexivity|].
  destruct (_ <? 0); [reflexivity | discriminate].
Qed.

Lemma scoreMatchDetailed_accepted cur cand uid cfg now seg :
  let d := scoreMatchDetailed cur cand uid cfg now seg in
  Rejected d = false ->
  Score d = WaitScore d + SegmentScore d + AudienceScore d
            + HistoryScore d + ActivityScore d
  /\ 0 <= Score d <= 13132.
Proof.
  unfold scoreMatchDetailed. cbv zeta.
  destruct (quickReject _ _ _ _ _) as [[] reason]; [discriminate|].
  destruct (Z.ltb_spec (scoreMicSegment seg (getMicSegment (MicCount cand))
                          (WaitSeconds cand)) 0) as [Hneg|Hpos];
    [discriminate|].
  intros _. cbn [Score WaitScore SegmentScore AudienceScore HistoryScore ActivityScore].
  pose proof (scoreWaitTime_range (WaitSeconds cand) cfg).
  pose proof (scoreMicSegment_values seg (getMicSegment (MicCount cand))
                (WaitSeconds cand)).
  pose proof (scoreAudienceDiff_range
                (int64 (AudienceCount cur - AudienceCount cand))).
  pose proof (scoreMatchHistory_range (MatchHistory cand)).
  pose proof (scoreActivity_range (ActivityLevel cand)).
  set (w := scoreWaitTime _ _) in *. set (g := scoreMicSegment _ _ _) in *.
  set (a := scoreAudienceDiff _) in *. set (h := scoreMatchHistory _) in *.
  set (v := scoreActivity _) in *.
  rewrite (int16_id (w + g)) by lia. rewrite (int16_id (w + g + a)) by lia.
  rewrite (int16_id (w + g + a + h)) by lia.
  rewrite (int16_id (w + g + a + h + v)) by lia.
  lia.
Qed.

(** C7.  A rejected detail carries the total -999, which lies strictly
    below the total of every non-rejected detail; a non-rejected detail
    carries the sum of its five component scores. *)
Theorem scoreMatchDetailed_sentinel_or_sum
    (cur cand : Entity) (uid : string) (cfg : MatchConfig) (now seg : Z)
    (cur' cand' : Entity) (uid' : string) (cfg' : MatchConfig) (now' seg' : Z) :
  let d := scoreMatchDetailed cur cand uid cfg now seg in
  let d' := scoreMatchDetailed cur' cand' uid' cfg' now' seg' in
  (Rejected d = true ->
     Score d = -999 /\ (Rejected d' = false -> Score d < Score d'))
  /\ (Rejected d = false ->
     Score d = WaitScore d + SegmentScore d + AudienceScore d
               + HistoryScore d + ActivityScore d).
Proof.
  cbv zeta. split.
  - intros Hrej. rewrite (scoreMatchDetailed_rejected _ _ _ _ _ _ Hrej).
    split; [reflexivity|]. intros Hacc.
    pose proof (scoreMatchDetailed_accepted cur' cand' uid' cfg' now' seg' Hacc).
    cbv zeta in *. lia.
  - intros Hacc. apply (scoreMatchDetailed_accepted cur cand uid cfg now seg Hacc).
Qed.

Lemma scoreMatchDetailed_sentinel_or_sum_witness :
  let seeker := mkEntity "s" ∅ ∅ 3 50 80 0 ActivityLow in
  let near := mkEntity "near" ∅ ∅ 2 50 80 12 ActivityHigh in
  let far := mkEntity "far" ∅ ∅ 9 50 10 12 ActivityHigh in
  let dfar := scoreMatchDetailed seeker far "seeker" DefaultMatchConfig 1000 1 in
  let dnear := scoreMatchDetailed seeker near "seeker" DefaultMatchConfig 1000 1 in
  (Rejected dfar = true /\ Rejected dnear = false
   /\ Score dfar = -999 /\ Score dfar < Score dnear)
  /\ (Rejected dnear = false
      /\ Score dnear = WaitScore dnear + SegmentScore dnear + AudienceScore dnear
                       + HistoryScore dnear + ActivityScore dnear).
Proof.
  cbv zeta.
  pose proof (scoreMatchDetailed_sentinel_or_sum
                (mkEntity "s" ∅ ∅ 3 50 80 0 ActivityLow)
                (mkEntity "far" ∅ ∅ 9 50 10 12 ActivityHigh)
                "seeker" DefaultMatchConfig 1000 1
                (mkEntity "s" ∅ ∅ 3 50 80 0 ActivityLow)
                (mkEntity "near" ∅ ∅ 2 50 80 12 ActivityHigh)
                "seeker" DefaultMatchConfig 1000 1) as Hfar.
  pose proof (scoreMatchDetailed_sentinel_or_sum
                (mkEntity "s" ∅ ∅ 3 50 80 0 ActivityLow)
                (mkEntity "near" ∅ ∅ 2 50 80 12 ActivityHigh)
                "seeker" DefaultMatchConfig 1000 1
                (mkEntity "s" ∅ ∅ 3 50 80 0 ActivityLow)
                (mkEntity "near" ∅ ∅ 2 50 80 12 ActivityHigh)
                "seeker" DefaultMatchConfig 1000 1) as Hnear.
  cbv zeta in Hfar, Hnear.
  assert (Hrej : Rejected (scoreMatchDetailed (mkEntity "s" ∅ ∅ 3 50 80 0 ActivityLow)
                   (mkEntity "far" ∅ ∅ 9 50 10 12 ActivityHigh)
                   "seeker" DefaultMatchConfig 1000 1) = true)
    by (vm_compute; reflexivity).
  assert (Hacc : Rejected (scoreMatchDetailed (mkEntity "s" ∅ ∅ 3 50 80 0 ActivityLow)
                   (mkEntity "near" ∅ ∅ 2 50 80 12 ActivityHigh)
                   "seeker" DefaultMatchConfig 1000 1) = false)
    by (vm_compute; reflexivity).
  destruct Hfar as [Hfar _]. destruct (Hfar Hrej) as [Hs Hlt].
  destruct Hnear as [_ Hnear].
  split.
  - split; [exact Hrej|]. split; [exact Hacc|]. split; [exact Hs|exact (Hlt Hacc)].
  - split; [exact Hacc|exact (Hnear Hacc)].
Defined.

(** ** The two scans of the pool *)

Section RunningMax.
Context {A : Type} (keep : A -> bool) (val : A -> Z).

Lemma runningMax_cons c l start :
  runningMax keep val (c :: l) start
  = runningMax keep val l (if keep c && (start <? val c) then val c else start).
Proof. reflexivity. Qed.

Lemma runningMax_ge_start l start : start <= runningMax keep val l start.
Proof.
  revert start. induction l as [|c l IH]; intros start; [simpl; unfold runningMax; simpl; lia|].
  rewrite runningMax_cons.
  etransitivity; [|apply IH].
  destruct (keep c); simpl; [|lia].
  destruct (Z.ltb_spec start (val c)); lia.
Qed.

Lemma runningMax_upper l start c :
  In c l -> keep c = true -> val c <= runningMax keep val l start.
Proof.
  revert start. induction l as [|c0 l IH]; intros start Hin Hk; [destruct Hin|].
  rewrite runningMax_cons. destruct Hin as [->|Hin].
  - rewrite Hk. simpl. etransitivity; [|apply runningMax_ge_start].
    destruct (Z.ltb_spec start (val c)); lia.
  - apply IH; assumption.
Qed.

Lemma runningMax_attained l start :
  runningMax keep val l start = start
  \/ exists c, In c l /\ keep c = true /\ val c = runningMax keep val l start.
Proof.
  revert start. induction l as [|c0 l IH]; intros start; [left; reflexivity|].
  rewrite runningMax_cons.
  destruct (IH (if keep c0 && (start <? val c0) then val c0 else start))
    as [Heq|(c & Hin & Hk & Hv)].
  - rewrite Heq. destruct (keep c0) eqn:Hk0; simpl; [|left; reflexivity].
    destruct (start <? val c0); [|left; reflexivity].
    right. exists c0. repeat split; [left; reflexivity | assumption].
  - right. exists c. repeat split; [right; assumption | assumption | assumption].
Qed.
End RunningMax.

Section Scan.
Variables (cur : Entity) (uid : string) (cfg : MatchConfig) (now : Z).

Local Abbreviation pd := (pairDetail cur uid cfg now).
Local Abbreviation seg := (getMicSegment (MicCount cur)).
Local Abbreviation acc := (accepted cur uid cfg now).
Local Abbreviation tot := (total cur uid cfg now).

Lemma pairDetail_entity c : DetailEntity (pd c) = c.
Proof. apply scoreMatchDetailed_entity. Qed.

Lemma total_accepted c : acc c = true -> 0 <= tot c.
Proof.
  unfold accepted, total, pairDetail. intros H.
  apply negb_true_iff in H.
  apply (scoreMatchDetailed_accepted _ _ _ _ _ _ H).
Qed.

Lemma total_rejected c : acc c = false -> tot c = -999.
Proof.
  unfold accepted, total, pairDetail. intros H.
  apply negb_false_iff in H.
  apply scoreMatchDetailed_rejected. exact H.
Qed.

(** First loop of [matchEntityDetailed]. *)
Lemma fold_detailStep pool details maxScore :
  fold_left (detailStep cur uid cfg now seg) pool (details, maxScore)
  = (details ++ map pd pool, runningMax acc tot pool maxScore).
Proof.
  revert details maxScore.
  induction pool as [|c pool IH]; intros details maxScore.
  - simpl. rewrite app_nil_r. reflexivity.
  - cbn [fold_left].
    assert (Hstep : detailStep cur uid cfg now seg (details, maxScore) c
                    = (details ++ [pd c],
                       if acc c && (maxScore <? tot c) then tot c
                       else maxScore)) by reflexivity.
    rewrite Hstep, IH, <- app_assoc. reflexivity.
Qed.

(** Second loop of [matchEntityDetailed]. *)
Lemma fold_collectStep maxScore pool candidates :
  fold_left (collectStep maxScore) (map pd pool) candidates
  = candidates ++ List.filter (fun c => acc c && (tot c =? maxScore)) pool.
Proof.
  revert candidates. induction pool as [|c pool IH]; intros candidates.
  - simpl. rewrite app_nil_r. reflexivity.
  - cbn [fold_left map List.filter]. rewrite IH.
    assert (Hstep : collectStep maxScore candidates (pd c)
                    = if acc c && (tot c =? maxScore)
                      then candidates ++ [c] else candidates).
    { unfold collectStep. rewrite pairDetail_entity. reflexivity. }
    rewrite Hstep. destruct (acc c && (tot c =? maxScore)).
    + rewrite <- app_assoc. reflexivity.
    + reflexivity.
Qed.

(** First loop of [matchEntity]. *)
Lemma fold_maxStep pool maxScore :
  fold_left (maxStep cur uid cfg now seg) pool maxScore
  = runningMax (fun _ => true) tot pool maxScore.
Proof. reflexivity. Qed.

(** Second loop of [matchEntity]. *)
Lemma fold_resultStep maxScore pool results :
  fold_left (resultStep cur uid cfg now seg maxScore) pool results
  = results
    ++ map (fun c => {| Room := c; ResultScore := tot c |})
           (List.filter (fun c => tot c =? maxScore) pool).
Proof.
  revert results. induction pool as [|c pool IH]; intros results.
  - simpl. rewrite app_nil_r. reflexivity.
  - cbn [fold_left List.filter]. rewrite IH.
    assert (Hstep : resultStep cur uid cfg now seg maxScore results c
                    = if tot c =? maxScore
                      then results ++ [{| Room := c; ResultScore := tot c |}]
                      else results) by reflexivity.
    rewrite Hstep. destruct (tot c =? maxScore).
    + rewrite <- app_assoc. reflexivity.
    + reflexivity.
Qed.

Lemma best_true pool c m :
  (forall c', In c' pool -> acc c' = true -> tot c' <= m) ->
  acc c = true -> tot c = m -> best cur uid cfg now pool c = true.
Proof.
  intros Hup Hacc Htot. unfold best. rewrite Hacc. simpl.
  apply forallb_forall. intros c' Hin.
  destruct (acc c') eqn:Hacc'; [|reflexivity]. simpl.
  apply Z.leb_le. rewrite Htot. apply Hup; assumption.
Qed.

Lemma best_total pool c c' :
  best cur uid cfg now pool c = true -> In c' pool -> acc c' = true ->
  tot c' <= tot c.
Proof.
  unfold best. intros Hb Hin Hacc. apply andb_true_iff in Hb as [_ Hall].
  rewrite forallb_forall in Hall. specialize (Hall c' Hin).
  rewrite Hacc in Hall. simpl in Hall. apply Z.leb_le. exact Hall.
Qed.

Lemma best_accepted pool c : best cur uid cfg now pool c = true -> acc c = true.
Proof. unfold best. intros Hb. apply andb_true_iff in Hb as [Hacc _]. exact Hacc. Qed.

(** What the detailed matcher learns from its running maximum. *)
Lemma detailed_scan pool :
  let m := runningMax acc tot pool (-1000) in
  (m < 0 -> tiedAtMaximum cur pool uid cfg now = [])
  /\ (0 <= m ->
      List.filter (fun c => acc c && (tot c =? m)) pool
      = tiedAtMaximum cur pool uid cfg now
      /\ tiedAtMaximum cur pool uid cfg now <> []).
Proof.
  cbv zeta. set (m := runningMax acc tot pool (-1000)).
  assert (Hup : forall c, In c pool -> acc c = true -> tot c <= m)
    by (intros c; apply runningMax_upper).
  unfold tiedAtMaximum. split.
  - intros Hneg.
    destruct (List.filter (best cur uid cfg now pool) pool) as [|c l] eqn:Hf;
      [reflexivity|].
    assert (Hc : In c (List.filter (best cur uid cfg now pool) pool))
      by (rewrite Hf; left; reflexivity).
    apply filter_In in Hc as [Hin Hb].
    pose proof (total_accepted c (best_accepted _ _ Hb)).
    pose proof (Hup c Hin (best_accepted _ _ Hb)). lia.
  - intros Hpos.
    destruct (runningMax_attained acc tot pool (-1000))
      as [Heq|(c0 & Hin0 & Hacc0 & Hv0)]; [fold m in Heq; lia|].
    fold m in Hv0.
    assert (Hsame : List.filter (fun c => acc c && (tot c =? m)) pool
                    = List.filter (best cur uid cfg now pool) pool).
    { apply filter_ext_in. intros c Hin.
      destruct (acc c) eqn:Hacc; simpl.
      - destruct (Z.eqb_spec (tot c) m) as [Heq|Hne].
        + symmetry. apply (best_true pool c m Hup Hacc Heq).
        + destruct (best cur uid cfg now pool c) eqn:Hb; [|reflexivity].
          pose proof (best_total pool c c0 Hb Hin0 Hacc0).
          pose proof (Hup c Hin Hacc). lia.
      - unfold best. rewrite Hacc. reflexivity. }
    split; [exact Hsame|]. rewrite <- Hsame. intros Hnil.
    assert (Hc : In c0 (List.filter (fun c => acc c && (tot c =? m)) pool)).
    { apply filter_In. split; [assumption|]. rewrite Hacc0. simpl.
      apply Z.eqb_eq. assumption. }
    rewrite Hnil in Hc. destruct Hc.
Qed.

(** What the score-only matcher learns from its running maximum. *)
Lemma simple_scan pool :
  let m := runningMax (fun _ => true) tot pool (-1000) in
  (m < 0 -> tiedAtMaximum cur pool uid cfg now = [])
  /\ (0 <= m ->
      List.filter (fun c => tot c =? m) pool
      = tiedAtMaximum cur pool uid cfg now
      /\ tiedAtMaximum cur pool uid cfg now <> []).
Proof.
  cbv zeta. set (m := runningMax (fun _ => true) tot pool (-1000)).
  assert (Hup : forall c, In c pool -> tot c <= m)
    by (intros c Hin; apply (runningMax_upper (fun _ => true)); auto).
  unfold tiedAtMaximum. split.
  - intros Hneg.
    destruct (List.filter (best cur uid cfg now pool) pool) as [|c l] eqn:Hf;
      [reflexivity|].
    assert (Hc : In c (List.filter (best cur uid cfg now pool) pool))
      by (rewrite Hf; left; reflexivity).
    apply filter_In in Hc as [Hin Hb].
    pose proof (total_accepted c (best_accepted _ _ Hb)).
    pose proof (Hup c Hin). lia.
  - intros Hpos.
    destruct (runningMax_attained (fun _ => true) tot pool (-1000))
      as [Heq|(c0 & Hin0 & _ & Hv0)]; [fold m in Heq; lia|].
    fold m in Hv0.
    assert (Hacc0 : acc c0 = true).
    { destruct (acc c0) eqn:Hacc; [reflexivity|].
      pose proof (total_rejected c0 Hacc). lia. }
    assert (Hsame : List.filter (fun c => tot c =? m) pool
                    = List.filter (best cur uid cfg now pool) pool).
    { apply filter_ext_in. intros c Hin.
      destruct (Z.eqb_spec (tot c) m) as [Heq|Hne].
      - symmetry. apply (best_true pool c m); [auto | | assumption].
        destruct (acc c) eqn:Hacc; [reflexivity|].
        pose proof (total_rejected c Hacc). lia.
      - destruct (best cur uid cfg now pool c) eqn:Hb; [|reflexivity].
        pose proof (best_total pool c c0 Hb Hin0 Hacc0).
        pose proof (Hup c Hin). lia. }
    split; [exact Hsame|]. rewrite <- Hsame. intros Hnil.
    assert (Hc : In c0 (List.filter (fun c => tot c =? m) pool)).
    { apply filter_In. split; [assumption|]. apply Z.eqb_eq. assumption. }
    rewrite Hnil in Hc. destruct Hc.
Qed.
End Scan.

(** ** Matcher *)

Lemma lookup_map_Some {A B} (f : A -> B) (l : list A) (i : nat) (a : A) :
  l !! i = Some a -> map f l !! i = Some (f a).
Proof.
  revert i. induction l as [|x l IH]; intros [|i] H; try discriminate.
  - injection H as ->. reflexivity.
  - simpl. apply IH. exact H.
Qed.

Lemma lookup_draw {A} (l : list A) (x : A) (r : nat) :
  exists a, (x :: l) !! (r mod length (x :: l))%nat = Some a.
Proof.
  apply lookup_lt_is_Some_2. apply Nat.mod_upper_bound. discriminate.
Qed.

Lemma matchEntity_run cur pool uid cfg w :
  matchEntity cur pool uid cfg w = selectAmongTied cur pool uid cfg w.
Proof.
  unfold matchEntity, selectAmongTied.
  destruct pool as [|c0 pool']; [reflexivity|].
  set (pool := c0 :: pool').
  change (length pool =? 0)%nat with false. cbv iota.
  unfold bind at 1 3, timeNowUnix. cbv beta iota zeta.
  set (now := unixClock w (clockReads w)).
  rewrite fold_maxStep. change (int16 (-1000)) with (-1000).
  destruct (simple_scan cur uid cfg now pool) as [Hneg Hpos]. cbv zeta in Hneg, Hpos.
  destruct (Z.ltb_spec
              (runningMax (fun _ => true) (total cur uid cfg now) pool (-1000)) 0)
    as [Hlt|Hge].
  - rewrite (Hneg Hlt). reflexivity.
  - destruct (Hpos Hge) as [Hsame Hne].
    rewrite fold_resultStep, app_nil_l, Hsame, length_map.
    destruct (tiedAtMaximum cur pool uid cfg now) as [|t tied]; [contradiction|].
    change (length (t :: tied) =? 0)%nat with false. cbv iota.
    unfold bind, randIntn, ret.
    cbn [length unixClock clockReads randSource randDraws].
    destruct (lookup_draw tied t (randSource w (randDraws w))) as [a Ha].
    cbn [length] in Ha. rewrite Ha.
    rewrite (lookup_map_Some _ _ _ _ Ha). reflexivity.
Qed.

Lemma matchEntityDetailed_run cur pool uid cfg w :
  matchEntityDetailed cur pool uid cfg w
  = bind (selectAmongTied cur pool uid cfg)
      (fun sel =>
         ret (sel, map (pairDetail cur uid cfg (unixClock w (clockReads w))) pool)) w.
Proof.
  unfold matchEntityDetailed, selectAmongTied.
  destruct pool as [|c0 pool']; [reflexivity|].
  set (pool := c0 :: pool').
  change (length pool =? 0)%nat with false. cbv iota.
  unfold bind at 1 3 4, timeNowUnix. cbv beta iota zeta.
  set (now := unixClock w (clockReads w)).
  rewrite fold_detailStep, app_nil_l. change (int16 (-1000)) with (-1000).
  destruct (detailed_scan cur uid cfg now pool) as [Hneg Hpos]. cbv zeta in Hneg, Hpos.
  destruct (Z.ltb_spec
              (runningMax (accepted cur uid cfg now) (total cur uid cfg now)
                 pool (-1000)) 0)
    as [Hlt|Hge].
  - rewrite (Hneg Hlt). reflexivity.
  - destruct (Hpos Hge) as [Hsame Hne].
    rewrite fold_collectStep, app_nil_l, Hsame.
    destruct (tiedAtMaximum cur pool uid cfg now) as [|t tied]; [contradiction|].
    change (length (t :: tied) =? 0)%nat with false. cbv iota.
    unfold bind, randIntn, ret.
    cbn [length unixClock clockReads randSource randDraws].
    destruct (lookup_draw tied t (randSource w (randDraws w))) as [a Ha].
    cbn [length] in Ha. rewrite Ha. reflexivity.
Qed.

(** The selection never panics: it returns a candidate or none. *)
Lemma selectAmongTied_returns cur pool uid cfg w :
  exists sel w', selectAmongTied cur pool uid cfg w = (Ret sel, w').
Proof.
  unfold selectAmongTied. destruct pool as [|c0 pool']; [eexists _, _; reflexivity|].
  unfold bind at 1, timeNowUnix. cbv beta iota.
  destruct (tiedAtMaximum _ _ _ _ _) as [|t tied]; [eexists _, _; reflexivity|].
  unfold bind, randIntn, ret. cbn [length]. eexists _, _; reflexivity.
Qed.

(** C8.  Run in the same world, the score-only matcher and the detailed
    matcher return the same selection and leave the same world behind: none
    when no candidate is both non-rejected and of maximal total, and
    otherwise the element that one draw of the generator picks in the list
    of non-rejected candidates of maximal total. *)
Theorem matchEntity_agrees_with_detailed
    (cur : Entity) (pool : list Entity) (uid : string) (cfg : MatchConfig)
    (w : World) :
  let now := unixClock w (clockReads w) in
  exists sel w',
    matchEntity cur pool uid cfg w = (Ret sel, w')
    /\ matchEntityDetailed cur pool uid cfg w
       = (Ret (sel, map (pairDetail cur uid cfg now) pool), w')
    /\ selectAmongTied cur pool uid cfg w = (Ret sel, w')
    /\ sel = match tiedAtMaximum cur pool uid cfg now with
             | [] => None
             | tied => tied !! (randSource w (randDraws w) mod length tied)%nat
             end.
Proof.
  cbv zeta.
  destruct (selectAmongTied_returns cur pool uid cfg w) as (sel & w' & Hsel).
  exists sel, w'. split; [|split; [|split]].
  - rewrite matchEntity_run. exact Hsel.
  - rewrite matchEntityDetailed_run. unfold bind. rewrite Hsel. reflexivity.
  - exact Hsel.
  - revert Hsel. unfold selectAmongTied.
    destruct pool as [|c0 pool'].
    + intros H. injection H as <- _. reflexivity.
    + unfold bind at 1, timeNowUnix. cbv beta iota.
      destruct (tiedAtMaximum _ _ _ _ _) as [|t tied].
      * intros H. injection H as <- _. reflexivity.
      * unfold bind, randIntn, ret.
        cbn [length unixClock clockReads randSource randDraws].
        intros H. injection H as <- _. reflexivity.
Qed.

(** A non-rejected candidate that every other pool member fails to reach
    is the one selected. *)
Lemma selectAmongTied_unique_best cur pool uid cfg w cand :
  let d := pairDetail cur uid cfg (unixClock w (clockReads w)) in
  In cand pool ->
  Rejected (d cand) = false ->
  (forall c, In c pool ->
     c = cand \/ Rejected (d c) = true \/ Score (d c) < Score (d cand)) ->
  exists w', selectAmongTied cur pool uid cfg w = (Ret (Some cand), w').
Proof.
  cbv zeta. intros Hin Hacc Hothers.
  set (now := unixClock w (clockReads w)) in *.
  assert (Hall : forall c, In c (tiedAtMaximum cur pool uid cfg now) -> c = cand).
  { intros c Hc. unfold tiedAtMaximum in Hc.
    apply filter_In in Hc as [Hcin Hb]. unfold best, accepted, total in Hb.
    apply andb_true_iff in Hb as [Hca Hcall].
    apply negb_true_iff in Hca. rewrite forallb_forall in Hcall.
    specialize (Hcall cand Hin). rewrite Hacc in Hcall. simpl in Hcall.
    apply Z.leb_le in Hcall.
    destruct (Hothers c Hcin) as [Heq|[Hrej|Hlt]];
      [exact Heq | congruence | lia]. }
  assert (Hmem : In cand (tiedAtMaximum cur pool uid cfg now)).
  { unfold tiedAtMaximum. apply filter_In. split; [exact Hin|].
    unfold best, accepted, total.
    rewrite Hacc. simpl. apply forallb_forall. intros c Hc.
    destruct (Hothers c Hc) as [->|[Hrej|Hlt]].
    - rewrite Hacc. simpl. apply Z.leb_le. lia.
    - rewrite Hrej. reflexivity.
    - apply orb_true_iff. right. apply Z.leb_le. lia. }
  unfold selectAmongTied. destruct pool as [|c0 pool']; [destruct Hin|].
  unfold bind at 1, timeNowUnix. cbv beta iota. fold now.
  destruct (tiedAtMaximum cur (c0 :: pool') uid cfg now) as [|t tied];
    [destruct Hmem|].
  unfold bind, randIntn, ret.
  cbn [length unixClock clockReads randSource randDraws].
  destruct (lookup_draw tied t (randSource w (randDraws w))) as [a Ha].
  cbn [length] in Ha. rewrite Ha.
  assert (a = cand) as ->.
  { apply Hall. apply list_elem_of_In. eapply list_elem_of_lookup_2. exact Ha. }
  eexists. reflexivity.
Qed.

(** ** Scenario A *)

(** C3, as stated, fails: occupancy 4 lies in tier 2, the segment score is
    not 10 and the total is not 30. *)
Lemma scenarioA_as_stated_fails :
  let seeker := mkEntity "seeker" ∅ ∅ 3 50 80 0 ActivityLow in
  let cand := mkEntity "cand" ∅ ∅ 4 50 80 12 ActivityHigh in
  let d := scoreMatchDetailed seeker cand "user123" DefaultMatchConfig 1000
             (getMicSegment (MicCount seeker)) in
  CandidateSegment d = 2 /\ Score d = 20
  /\ ~ (CandidateSegment d = 1 /\ Rejected d = false
        /\ WaitScore d = 8 /\ SegmentScore d = 10 /\ AudienceScore d = 5
        /\ HistoryScore d = 4 /\ ActivityScore d = 3 /\ Score d = 30).
Proof.
  vm_compute. split; [reflexivity|]. split; [reflexivity|].
  intros [H _]. discriminate H.
Qed.

(** C3, amended.  In scenario A the seeker is in tier 1 and the candidate
    in tier 2; the pair is eligible with wait score 8, audience score 5,
    history score 4 and activity score 3; its total is the sum of the five
    component scores; and the candidate is selected from any pool in which
    every other member is rejected or scores strictly less. *)
Theorem scenarioA (x : Z) (seeker cand : Entity) (uid : string) (now : Z) :
  is_uint16 x ->
  MicCount seeker = 3 -> AudienceCount seeker = x ->
  MicCount cand = 4 -> WaitSeconds cand = 80 -> AudienceCount cand = x ->
  MatchHistory cand = 12 -> ActivityLevel cand = ActivityHigh ->
  Blacklist cand = ∅ -> LastMatchedUsers cand !! uid = None ->
  let d := pairDetail seeker uid DefaultMatchConfig now in
  CurrentSegment (d cand) = 1 /\ CandidateSegment (d cand) = 2
  /\ Rejected (d cand) = false
  /\ WaitScore (d cand) = 8 /\ AudienceScore (d cand) = 5
  /\ HistoryScore (d cand) = 4 /\ ActivityScore (d cand) = 3
  /\ Score (d cand) = WaitScore (d cand) + SegmentScore (d cand)
                      + AudienceScore (d cand) + HistoryScore (d cand)
                      + ActivityScore (d cand)
  /\ forall (pool : list Entity) (w : World),
       unixClock w (clockReads w) = now ->
       In cand pool ->
       (forall c, In c pool ->
          c = cand \/ Rejected (d c) = true \/ Score (d c) < Score (d cand)) ->
       exists details w',
         matchEntityDetailed seeker pool uid DefaultMatchConfig w
         = (Ret (Some cand, details), w').
Proof.
  intros Hx Hmic Haud Hcmic Hwait Hcaud Hhist Hact Hbl Hlast. cbv zeta.
  assert (Hq : quickReject seeker cand uid DefaultMatchConfig now = (false, "")).
  { unfold quickReject. cbv zeta. rewrite Hbl, Hlast, Hwait.
    destruct (decide (uid ∈ (∅ : gset string))) as [Hin|_]; [|reflexivity].
    destruct (not_elem_of_empty (C := gset string) uid Hin). }
  assert (Hd : pairDetail seeker uid DefaultMatchConfig now cand
               = {| DetailEntity := cand; Score := 20;
                    WaitScore := 8; SegmentScore := 0; AudienceScore := 5;
                    HistoryScore := 4; ActivityScore := 3;
                    CurrentSegment := 1; CandidateSegment := 2;
                    Rejected := false; RejectReason := "" |}).
  { unfold pairDetail, scoreMatchDetailed. cbv zeta.
    rewrite Hq, Hmic, Hcmic, Hwait, Haud, Hcaud, Hhist, Hact, Z.sub_diag.
    reflexivity. }
  rewrite Hd. cbn [CurrentSegment CandidateSegment Rejected WaitScore SegmentScore
                   AudienceScore HistoryScore ActivityScore Score].
  repeat (split; [reflexivity|]).
  intros pool w Hnow Hin Hothers.
  destruct (selectAmongTied_unique_best seeker pool uid DefaultMatchConfig w cand)
    as [w' Hsel].
  - exact Hin.
  - rewrite Hnow, Hd. reflexivity.
  - rewrite Hnow, Hd. exact Hothers.
  - eexists _, w'. rewrite matchEntityDetailed_run. unfold bind.
    rewrite Hsel. reflexivity.
Qed.

Lemma scenarioA_witness :
  let seeker := mkEntity "seeker" ∅ ∅ 3 50 80 0 ActivityLow in
  let cand := mkEntity "cand" ∅ ∅ 4 50 80 12 ActivityHigh in
  let rival := mkEntity "rival" ∅ ∅ 9 50 10 12 ActivityHigh in
  let w := mkWorld (fun _ => 1000) 0 (fun k => k) 0 in
  let d := pairDetail seeker "user123" DefaultMatchConfig 1000 in
  CandidateSegment (d cand) = 2 /\ Rejected (d cand) = false
  /\ exists details w',
       matchEntityDetailed seeker [rival; cand] "user123" DefaultMatchConfig w
       = (Ret (Some cand, details), w').
Proof.
  cbv zeta.
  destruct (scenarioA 50 (mkEntity "seeker" ∅ ∅ 3 50 80 0 ActivityLow)
              (mkEntity "cand" ∅ ∅ 4 50 80 12 ActivityHigh) "user123" 1000)
    as (_ & Hseg & Hacc & _ & _ & _ & _ & _ & Hsel);
    try reflexivity; [unfold is_uint16; lia|].
  split; [exact Hseg|]. split; [exact Hacc|].
  apply Hsel.
  - reflexivity.
  - right. left. reflexivity.
  - intros c [<-|[<-|[]]].
    + right. left. vm_compute. reflexivity.
    + left. reflexivity.
Defined.

(** ** Batch matcher *)

(** C9.  With lists of different lengths the batch call panics with the
    mismatch message before it touches the clock or the generator: no
    seeker has been matched and no mapping comes back. *)
Theorem batchMatchEntities_length_mismatch
    (rooms : list (option Entity)) (pool : list Entity) (userIDs : list string)
    (cfg : MatchConfig) (w : World) :
  length rooms <> length userIDs ->
  batchMatchEntities rooms pool userIDs cfg w
  = (Panic "rooms and userIDs length mismatch", w).
Proof.
  intros Hne. unfold batchMatchEntities.
  destruct (Nat.eqb_spec (length rooms) (length userIDs)); [contradiction|].
  reflexivity.
Qed.

Lemma batchMatchEntities_length_mismatch_witness :
  let s := mkEntity "s" ∅ ∅ 3 50 80 0 ActivityLow in
  let w := mkWorld (fun _ => 1000) 0 (fun k => k) 0 in
  length [Some s; Some s; Some s] <> length ["u1"; "u2"]
  /\ batchMatchEntities [Some s; Some s; Some s] [s] ["u1"; "u2"] DefaultMatchConfig w
     = (Panic "rooms and userIDs length mismatch", w).
Proof.
  cbv zeta.
  assert (Hne : length [Some (mkEntity "s" ∅ ∅ 3 50 80 0 ActivityLow);
                        Some (mkEntity "s" ∅ ∅ 3 50 80 0 ActivityLow);
                        Some (mkEntity "s" ∅ ∅ 3 50 80 0 ActivityLow)]
                <> length ["u1"; "u2"]) by (simpl; lia).
  split; [exact Hne|].
  exact (batchMatchEntities_length_mismatch _ _ _ _ _ Hne).
Defined.

Lemma matchEntity_returns cur pool uid cfg w :
  exists matched w', matchEntity cur pool uid cfg w = (Ret matched, w').
Proof. rewrite matchEntity_run. apply selectAmongTied_returns. Qed.

Section Batch.
Variables (pool : list Entity) (userIDs : list string) (cfg : MatchConfig).

(** The loop returns, and its map is the recorded selections written in
    call order over the map it started from. *)
Lemma batchLoop_applies rooms i results w :
  exists w',
    batchLoop pool userIDs cfg rooms i results w
    = (Ret (applySelections (batchSelections pool userIDs cfg rooms i w) results), w').
Proof.
  revert i results w. induction rooms as [|room rooms IH]; intros i results w.
  - exists w. reflexivity.
  - cbn [batchLoop batchSelections].
    destruct room as [room|]; [destruct (userIDs !! i) as [userID|]|].
    + unfold bind.
      destruct (matchEntity_returns room pool userID cfg w) as (matched & w1 & Hm).
      rewrite Hm.
      destruct (IH (S i) (match matched with
                          | Some m => <[ID room := m]> results
                          | None => results
                          end) w1) as [w' Hloop].
      exists w'. rewrite Hloop. destruct matched; reflexivity.
    + destruct (IH (S i) results w) as [w' Hloop]. exists w'. exact Hloop.
    + destruct (IH (S i) results w) as [w' Hloop]. exists w'. exact Hloop.
Qed.

Lemma batchSelections_length rooms i w :
  length (batchSelections pool userIDs cfg rooms i w) = length rooms.
Proof.
  revert i w. induction rooms as [|room rooms IH]; intros i w; [reflexivity|].
  cbn [batchSelections].
  destruct room as [room|]; [destruct (userIDs !! i) as [userID|]|];
    try (cbn [length]; rewrite IH; reflexivity).
  destruct (matchEntity_returns room pool userID cfg w) as (matched & w1 & Hm).
  rewrite Hm. cbn [length]. rewrite IH. reflexivity.
Qed.

Lemma batchSelections_absent rooms i w n :
  rooms !! n = Some None ->
  batchSelections pool userIDs cfg rooms i w !! n = Some None.
Proof.
  revert i w n. induction rooms as [|room rooms IH]; intros i w n Hn;
    [discriminate|].
  cbn [batchSelections]. destruct n as [|n].
  - injection Hn as ->. reflexivity.
  - change ((room :: rooms) !! S n) with (rooms !! n) in Hn.
    destruct room as [room|]; [destruct (userIDs !! i) as [userID|]|];
      try (apply (IH (S i) w n Hn)).
    destruct (matchEntity_returns room pool userID cfg w) as (matched & w1 & Hm).
    rewrite Hm. apply (IH (S i) w1 n Hn).
Qed.

(** A present seeker is recorded with the outcome of its matcher call, run
    in the world the loop over the earlier positions has left. *)
Lemma batchSelections_present rooms i results w n room :
  rooms !! n = Some (Some room) ->
  (forall j, (j < length rooms)%nat -> is_Some (userIDs !! (i + j)%nat)) ->
  exists userID matched wn',
    userIDs !! (i + n)%nat = Some userID
    /\ matchEntity room pool userID cfg
         (snd (batchLoop pool userIDs cfg (take n rooms) i results w))
       = (Ret matched, wn')
    /\ batchSelections pool userIDs cfg rooms i w !! n
       = Some (pair (ID room) <$> matched).
Proof.
  revert i results w n.
  induction rooms as [|r rooms IH]; intros i results w n Hn Hids;
    [discriminate|].
  assert (Hids' : forall j, (j < length rooms)%nat ->
                            is_Some (userIDs !! (S i + j)%nat)).
  { intros j Hj. replace (S i + j)%nat with (i + S j)%nat by lia.
    apply Hids. simpl. lia. }
  destruct n as [|n].
  - injection Hn as ->.
    destruct (Hids 0%nat) as [userID Hid]; [simpl; lia|].
    rewrite Nat.add_0_r in *. cbn [batchSelections take batchLoop ret snd].
    rewrite Hid.
    destruct (matchEntity_returns room pool userID cfg w) as (matched & w1 & Hm).
    rewrite Hm. exists userID, matched, w1. repeat split; assumption.
  - change ((r :: rooms) !! S n) with (rooms !! n) in Hn.
    replace (i + S n)%nat with (S i + n)%nat by lia.
    cbn [batchSelections take batchLoop].
    destruct r as [r|]; [destruct (userIDs !! i) as [userID|]|];
      try (apply (IH (S i) results w n Hn Hids')).
    unfold bind.
    destruct (matchEntity_returns r pool userID cfg w) as (matched & w1 & Hm).
    rewrite Hm. apply (IH (S i) _ w1 n Hn Hids').
Qed.
End Batch.

(** The last write to a key decides its entry. *)
Lemma applySelections_lookup sels (results : gmap string Entity) k c :
  applySelections sels results !! k = Some c
  <-> (exists i, sels !! i = Some (Some (k, c))
                 /\ forall j k' c', (i < j)%nat ->
                      sels !! j = Some (Some (k', c')) -> k' <> k)
      \/ (results !! k = Some c
          /\ forall j k' c', sels !! j = Some (Some (k', c')) -> k' <> k).
Proof.
  revert results. induction sels as [|sel sels IH]; intros results.
  - unfold applySelections. simpl. split.
    + intros H. right. split; [exact H|]. intros j k' c' Hj. discriminate Hj.
    + intros [(i & Hi & _)|[H _]]; [discriminate Hi | exact H].
  - change (applySelections (sel :: sels) results)
      with (applySelections sels (match sel with
                                  | Some (k0, c0) => <[k0 := c0]> results
                                  | None => results
                                  end)).
    rewrite IH. clear IH. split.
    + intros [(i & Hi & Hlater)|[Hhere Hnone]].
      * left. exists (S i). split; [exact Hi|].
        intros [|j] k' c' Hlt Hj; [lia|]. apply (Hlater j k' c'); [lia|exact Hj].
      * destruct sel as [[k0 c0]|].
        -- destruct (decide (k0 = k)) as [->|Hne].
           ++ rewrite lookup_insert_eq in Hhere. injection Hhere as ->.
              left. exists 0%nat. split; [reflexivity|].
              intros [|j] k' c' Hlt Hj; [lia|]. apply (Hnone j k' c' Hj).
           ++ rewrite lookup_insert_ne in Hhere by exact Hne.
              right. split; [exact Hhere|].
              intros [|j] k' c' Hj.
              ** injection Hj as -> _. exact Hne.
              ** apply (Hnone j k' c' Hj).
        -- right. split; [exact Hhere|].
           intros [|j] k' c' Hj; [discriminate Hj|]. apply (Hnone j k' c' Hj).
    + intros [(i & Hi & Hlater)|[Hhere Hnone]].
      * destruct i as [|i].
        -- injection Hi as ->. right. split; [apply lookup_insert_eq|].
           intros j k' c' Hj. apply (Hlater (S j) k' c'); [lia|exact Hj].
        -- left. exists i. split; [exact Hi|].
           intros j k' c' Hlt Hj. apply (Hlater (S j) k' c'); [lia|exact Hj].
      * right. split.
        -- destruct sel as [[k0 c0]|]; [|exact Hhere].
           rewrite lookup_insert_ne; [exact Hhere|].
           apply (Hnone 0%nat k0 c0). reflexivity.
        -- intros j k' c' Hj. apply (Hnone (S j) k' c'). exact Hj.
Qed.

(** C10, as stated, fails: two present seekers share the ID "s"; the first
    call selects [a], the second selects [b], and the mapping keeps only
    "s" -> [b]. *)
Lemma batch_shared_id_keeps_last :
  let s := mkEntity "s" ∅ ∅ 3 50 80 0 ActivityLow in
  let a := mkEntity "a" ∅ ∅ 3 50 80 12 ActivityHigh in
  let b := mkEntity "b" ∅ ∅ 3 50 80 12 ActivityHigh in
  let w := mkWorld (fun _ => 1000) 0 (fun k => k) 0 in
  let rooms := [Some s; Some s] in
  let userIDs := ["u1"; "u2"] in
  length rooms = length userIDs
  /\ rooms !! 0%nat = Some (Some s)
  /\ fst (matchEntity s [a; b] "u1" DefaultMatchConfig w) = Ret (Some a)
  /\ exists m w',
       batchMatchEntities rooms [a; b] userIDs DefaultMatchConfig w = (Ret m, w')
       /\ m !! ID s <> Some a.
Proof.
  cbv zeta. split; [reflexivity|]. split; [reflexivity|].
  split; [vm_compute; reflexivity|].
  exists {[ "s" := mkEntity "b" ∅ ∅ 3 50 80 12 ActivityHigh ]},
         (mkWorld (fun _ => 1000) 2 (fun k => k) 2).
  split; [vm_compute; reflexivity|].
  cbn [ID]. rewrite lookup_singleton_eq. intros H.
  injection H as H. discriminate H.
Qed.

(** C10, amended.  With lists of equal length the batch call returns a
    mapping.  Each position is recorded once: nothing for an absent seeker,
    and for a present seeker the outcome of its matcher call on the
    identifier at the same position, in the world the earlier positions
    have left, under the seeker's own ID.  The mapping holds [k -> c]
    exactly when [c] is the selection recorded at the last position whose
    seeker has ID [k] and found a match; positions recorded as nothing
    write no entry. *)
Theorem batchMatchEntities_records_last_selection
    (rooms : list (option Entity)) (pool : list Entity) (userIDs : list string)
    (cfg : MatchConfig) (w : World) :
  length rooms = length userIDs ->
  let sels := batchSelections pool userIDs cfg rooms 0 w in
  let worldAt i := snd (batchLoop pool userIDs cfg (take i rooms) 0 ∅ w) in
  exists m w',
    batchMatchEntities rooms pool userIDs cfg w = (Ret m, w')
    /\ length sels = length rooms
    /\ (forall i, rooms !! i = Some None -> sels !! i = Some None)
    /\ (forall i room, rooms !! i = Some (Some room) ->
          exists userID matched wi',
            userIDs !! i = Some userID
            /\ matchEntity room pool userID cfg (worldAt i) = (Ret matched, wi')
            /\ sels !! i = Some (pair (ID room) <$> matched))
    /\ (forall k c,
          m !! k = Some c
          <-> exists i, sels !! i = Some (Some (k, c))
                        /\ forall j k' c', (i < j)%nat ->
                             sels !! j = Some (Some (k', c')) -> k' <> k).
Proof.
  intros Hlen. cbv zeta.
  destruct (batchLoop_applies pool userIDs cfg rooms 0 ∅ w) as [w' Hloop].
  eexists _, w'. split; [|split; [|split; [|split]]].
  - unfold batchMatchEntities.
    destruct (Nat.eqb_spec (length rooms) (length userIDs)); [|contradiction].
    exact Hloop.
  - apply batchSelections_length.
  - intros i Hi. apply batchSelections_absent. exact Hi.
  - intros i room Hi.
    destruct (batchSelections_present pool userIDs cfg rooms 0 ∅ w i room Hi)
      as (userID & matched & wi' & Hid & Hm & Hs).
    + intros j Hj. apply lookup_lt_is_Some_2. simpl. lia.
    + exists userID, matched, wi'. repeat split; assumption.
  - intros k c. rewrite applySelections_lookup. split.
    + intros [H|[H _]]; [exact H|]. rewrite lookup_empty in H. discriminate H.
    + intros H. left. exact H.
Qed.

Lemma batchMatchEntities_records_last_selection_witness :
  let s := mkEntity "s" ∅ ∅ 3 50 80 0 ActivityLow in
  let a := mkEntity "a" ∅ ∅ 3 50 80 12 ActivityHigh in
  let w := mkWorld (fun _ => 1000) 0 (fun k => k) 0 in
  length [Some s; None] = length ["u1"; "u2"]
  /\ exists m w',
       batchMatchEntities [Some s; None] [a] ["u1"; "u2"] DefaultMatchConfig w
       = (Ret m, w')
       /\ m !! "s" = Some a.
Proof.
  cbv zeta.
  assert (Hlen : length [Some (mkEntity "s" ∅ ∅ 3 50 80 0 ActivityLow); None]
                 = length ["u1"; "u2"]) by reflexivity.
  split; [exact Hlen|].
  destruct (batchMatchEntities_records_last_selection
              [Some (mkEntity "s" ∅ ∅ 3 50 80 0 ActivityLow); None]
              [mkEntity "a" ∅ ∅ 3 50 80 12 ActivityHigh] ["u1"; "u2"]
              DefaultMatchConfig (mkWorld (fun _ => 1000) 0 (fun k => k) 0) Hlen)
    as (m & w' & Hrun & _ & _ & _ & Hmap).
  exists m, w'. split; [exact Hrun|].
  apply Hmap. exists 0%nat. split; [vm_compute; reflexivity|].
  intros [|[|j]] k' c' Hlt Hj; [lia | vm_compute in Hj; discriminate Hj
                                | vm_compute in Hj; discriminate Hj].
Defined.

(** * Further properties of the scorers and the filter *)

Lemma scoreMicSegment_sign s c w :
  (s = c -> scoreMicSegment s c w = 10)
  /\ (s <> c -> w < 60 -> scoreMicSegment s c w = -999)
  /\ (s <> c -> 60 <= w -> scoreMicSegment s c w = 3 \/ scoreMicSegment s c w = 0).
Proof.
  unfold scoreMicSegment. cbv zeta.
  destruct (Z.eqb_spec s c) as [Heq|Hne].
  - split; [reflexivity|]. split; intros Hne; contradiction.
  - split; [intros Heq; contradiction|].
    destruct (Z.leb_spec 60 w) as [Hw|Hw].
    + split; [intros _ Hlt; lia|]. intros _ _.
      destruct (_ =? 1); simpl; auto.
    + rewrite andb_false_r. split; [reflexivity | intros _ Hge; lia].
Qed.

(** X1.  The segment-consistency score is negative exactly when the tiers
    differ and the candidate has waited less than 60 seconds; equal tiers
    always score 10. *)
Theorem scoreMicSegment_negative_iff (s c w : Z) :
  (scoreMicSegment s c w < 0 <-> s <> c /\ w < 60)
  /\ scoreMicSegment s s w = 10.
Proof.
  destruct (scoreMicSegment_sign s c w) as (Hsame & Hshort & Hlong).
  split.
  - split.
    + intros Hneg. destruct (Z.eq_dec s c) as [Heq|Hne].
      * rewrite (Hsame Heq) in Hneg. lia.
      * split; [exact Hne|]. destruct (Z.lt_ge_cases w 60) as [Hw|Hw]; [exact Hw|].
        destruct (Hlong Hne Hw) as [H|H]; rewrite H in Hneg; lia.
    + intros [Hne Hw]. rewrite (Hshort Hne Hw). lia.
  - apply (scoreMicSegment_sign s s w). reflexivity.
Qed.

(** X2.  Away from the least [int], the audience score depends only on the
    absolute difference: 5 minus it, and 0 from a difference of 5 on. *)
Theorem scoreAudienceDiff_closed_form (diff : Z) :
  - 2 ^ 63 < diff < 2 ^ 63 ->
  scoreAudienceDiff diff = Z.max 0 (5 - Z.abs diff).
Proof.
  intros Hr. unfold scoreAudienceDiff. cbv zeta.
  assert (Habs : (if diff <? 0 then int64 (- diff) else diff) = Z.abs diff).
  { destruct (Z.ltb_spec diff 0).
    - rewrite int64_id by (unfold is_int64; lia). lia.
    - lia. }
  rewrite Habs. change (Z.of_nat (length audienceDiffScores)) with 6.
  destruct (Z.ltb_spec (Z.abs diff) 6) as [Hlt|Hge]; [|lia].
  assert (Hn : exists n : nat, Z.abs diff = Z.of_nat n /\ (n < 6)%nat).
  { exists (Z.to_nat (Z.abs diff)). lia. }
  destruct Hn as (n & -> & Hn). rewrite Nat2Z.id.
  do 6 (destruct n as [|n]; [reflexivity|]). lia.
Qed.

Lemma scoreAudienceDiff_closed_form_witness :
  - 2 ^ 63 < -3 < 2 ^ 63 /\ scoreAudienceDiff (-3) = Z.max 0 (5 - Z.abs (-3)).
Proof.
  assert (Hr : - 2 ^ 63 < -3 < 2 ^ 63) by lia.
  split; [exact Hr|]. exact (scoreAudienceDiff_closed_form (-3) Hr).
Defined.

(** X3.  The history score never decreases when the number of past matches
    grows. *)
Theorem scoreMatchHistory_monotone (h1 h2 : Z) :
  h1 <= h2 -> scoreMatchHistory h1 <= scoreMatchHistory h2.
Proof.
  intros Hle. unfold scoreMatchHistory.
  repeat match goal with
         | |- context [?a <=? ?b] => destruct (Z.leb_spec a b)
         end; lia.
Qed.

Lemma scoreMatchHistory_monotone_witness :
  7 <= 12 /\ scoreMatchHistory 7 <= scoreMatchHistory 12.
Proof.
  assert (Hle : 7 <= 12) by lia.
  split; [exact Hle|]. exact (scoreMatchHistory_monotone 7 12 Hle).
Defined.

(** X4.  For every [uint16] wait and every configuration the wait score
    lies between 0 and 13098: the [int16] arithmetic never wraps. *)
Theorem scoreWaitTime_bounds (seconds : Z) (cfg : MatchConfig) :
  is_uint16 seconds -> 0 <= scoreWaitTime seconds cfg <= 13098.
Proof.
  intros Hs. rewrite scoreWaitTime_cases by exact Hs.
  pose proof (uint16_range (MinWaitTime cfg)) as Hm. unfold is_uint16 in Hs.
  repeat match goal with
         | |- context [?a <=? ?b] => destruct (Z.leb_spec a b)
         end; Z.div_mod_to_equations; lia.
Qed.

Lemma scoreWaitTime_bounds_witness :
  is_uint16 65535 /\ 0 <= scoreWaitTime 65535 DefaultMatchConfig <= 13098.
Proof.
  assert (Hs : is_uint16 65535) by (unfold is_uint16; lia).
  split; [exact Hs|]. exact (scoreWaitTime_bounds 65535 DefaultMatchConfig Hs).
Defined.

(** X5.  A negative minimum wait does not remove the threshold: converted
    to [uint16] it stands for 65536 plus itself, and every wait up to that
    value scores 0. *)
Theorem scoreWaitTime_negative_minimum (seconds : Z) (cfg : MatchConfig) :
  -65536 <= MinWaitTime cfg < 0 ->
  is_uint16 seconds ->
  seconds <= 65536 + MinWaitTime cfg ->
  scoreWaitTime seconds cfg = 0.
Proof.
  intros Hm Hs Hle. unfold scoreWaitTime.
  assert (Hu : uint16 (MinWaitTime cfg) = 65536 + MinWaitTime cfg).
  { unfold uint16. symmetry. apply (Z.mod_unique _ _ (-1)); lia. }
  rewrite Hu. destruct (Z.leb_spec seconds (65536 + MinWaitTime cfg)); [reflexivity|lia].
Qed.

Lemma scoreWaitTime_negative_minimum_witness :
  let cfg := {| RecentMatchCooldown := 600; MaxWaitTime := 300; MinWaitTime := -1 |} in
  -65536 <= MinWaitTime cfg < 0 /\ is_uint16 300
  /\ 300 <= 65536 + MinWaitTime cfg /\ scoreWaitTime 300 cfg = 0.
Proof.
  cbv zeta.
  assert (Hm : -65536 <= MinWaitTime (mkMatchConfig 600 300 (-1)) < 0) by (simpl; lia).
  assert (Hs : is_uint16 300) by (unfold is_uint16; lia).
  assert (Hle : 300 <= 65536 + MinWaitTime (mkMatchConfig 600 300 (-1))) by (simpl; lia).
  split; [exact Hm|]. split; [exact Hs|]. split; [exact Hle|].
  exact (scoreWaitTime_negative_minimum 300 (mkMatchConfig 600 300 (-1)) Hm Hs Hle).
Defined.

(** The pre-emptive check of [quickReject], on its own. *)
Lemma segmentCheck_cases (cur cand : Entity) :
  let check :=
    if WaitSeconds cand <? 60
    then
      let currentSeg := getMicSegment (MicCount cur) in
      let candidateSeg := getMicSegment (MicCount cand) in
      let diff := uint8 (currentSeg - candidateSeg) in
      let diff := if diff <? 0 then uint8 (- diff) else diff in
      if 1 <? diff then (true, reasonSegmentGap currentSeg candidateSeg)
      else (false, "")
    else (false, "") in
  (check = (false, "")
   /\ (WaitSeconds cand < 60 ->
       uint8 (getMicSegment (MicCount cur) - getMicSegment (MicCount cand)) <= 1))
  \/ (check = (true, reasonSegmentGap (getMicSegment (MicCount cur))
                                      (getMicSegment (MicCount cand)))
      /\ WaitSeconds cand < 60
      /\ getMicSegment (MicCount cur) <> getMicSegment (MicCount cand)).
Proof.
  cbv zeta.
  set (s := getMicSegment (MicCount cur)). set (c := getMicSegment (MicCount cand)).
  pose proof (uint8_range (s - c)) as Hr.
  destruct (Z.ltb_spec (WaitSeconds cand) 60) as [Hw|Hw]; [|left; split; [reflexivity|lia]].
  destruct (Z.ltb_spec (uint8 (s - c)) 0) as [Hneg|_]; [lia|].
  destruct (Z.ltb_spec 1 (uint8 (s - c))) as [Hgap|Hnear].
  - right. split; [reflexivity|]. split; [exact Hw|].
    intros Heq. rewrite Heq, Z.sub_diag in Hgap. vm_compute in Hgap. discriminate Hgap.
  - left. split; [reflexivity|]. intros _. exact Hnear.
Qed.

(** Outcomes of [quickReject], by the check that decided. *)
Lemma quickReject_cases (cur cand : Entity) (uid : string) (cfg : MatchConfig) (now : Z) :
  let s := getMicSegment (MicCount cur) in
  let c := getMicSegment (MicCount cand) in
  (quickReject cur cand uid cfg now = (true, reasonBlacklisted)
   /\ uid ∈ Blacklist cand)
  \/ (exists t, quickReject cur cand uid cfg now = (true, reasonCooldown (int64 (now - t)))
                /\ (uid ∉ Blacklist cand)
                /\ LastMatchedUsers cand !! uid = Some t
                /\ int64 (now - t) < RecentMatchCooldown cfg)
  \/ (quickReject cur cand uid cfg now = (true, reasonSegmentGap s c)
      /\ (uid ∉ Blacklist cand)
      /\ (forall t, LastMatchedUsers cand !! uid = Some t ->
                    RecentMatchCooldown cfg <= int64 (now - t))
      /\ WaitSeconds cand < 60 /\ s <> c)
  \/ (quickReject cur cand uid cfg now = (false, "")
      /\ (uid ∉ Blacklist cand)
      /\ (forall t, LastMatchedUsers cand !! uid = Some t ->
                    RecentMatchCooldown cfg <= int64 (now - t))
      /\ (WaitSeconds cand < 60 -> uint8 (s - c) <= 1)).
Proof.
  cbv zeta. unfold quickReject. cbv zeta.
  destruct (decide (uid ∈ Blacklist cand)) as [Hin|Hnin]; [left; split; [reflexivity|exact Hin]|].
  right.
  assert (Hafter :
    forall P : Prop, P ->
    (forall t, LastMatchedUsers cand !! uid = Some t ->
               RecentMatchCooldown cfg <= int64 (now - t)) ->
    let check :=
      if WaitSeconds cand <? 60
      then
        let currentSeg := getMicSegment (MicCount cur) in
        let candidateSeg := getMicSegment (MicCount cand) in
        let diff := uint8 (currentSeg - candidateSeg) in
        let diff := if diff <? 0 then uint8 (- diff) else diff in
        if 1 <? diff then (true, reasonSegmentGap currentSeg candidateSeg)
        else (false, "")
      else (false, "") in
    (check = (true, reasonSegmentGap (getMicSegment (MicCount cur))
                                      (getMicSegment (MicCount cand)))
     /\ P
     /\ (forall t, LastMatchedUsers cand !! uid = Some t ->
                   RecentMatchCooldown cfg <= int64 (now - t))
     /\ WaitSeconds cand < 60
     /\ getMicSegment (MicCount cur) <> getMicSegment (MicCount cand))
    \/ (check = (false, "")
        /\ P
        /\ (forall t, LastMatchedUsers cand !! uid = Some t ->
                      RecentMatchCooldown cfg <= int64 (now - t))
        /\ (WaitSeconds cand < 60 ->
            uint8 (getMicSegment (MicCount cur) - getMicSegment (MicCount cand)) <= 1))).
  { intros P HP Hcool. cbv zeta.
    destruct (segmentCheck_cases cur cand) as [[Hc Hnear]|(Hc & Hw & Hne)];
      cbv zeta in Hc; rewrite Hc.
    - right. repeat split; assumption.
    - left. repeat split; assumption. }
  cbv zeta in Hafter.
  destruct (LastMatchedUsers cand !! uid) as [t|] eqn:Hlast.
  - destruct (Z.ltb_spec (int64 (now - t)) (RecentMatchCooldown cfg)) as [Hlt|Hge].
    + left. exists t. repeat split; assumption.
    + right. apply (Hafter _ Hnin). intros t' Ht'. injection Ht' as <-. exact Hge.
  - right. apply (Hafter _ Hnin). intros t' Ht'. discriminate Ht'.
Qed.

(** Rejection by [scoreMatchDetailed]: the filter fired, or the segment
    score is negative. *)
Lemma scoreMatchDetailed_rejected_iff cur cand uid cfg now seg :
  Rejected (scoreMatchDetailed cur cand uid cfg now seg) = true
  <-> fst (quickReject cur cand uid cfg now) = true
      \/ scoreMicSegment seg (getMicSegment (MicCount cand)) (WaitSeconds cand) < 0.
Proof.
  unfold scoreMatchDetailed. cbv zeta.
  destruct (quickReject cur cand uid cfg now) as [[] reason]; simpl.
  - split; [intros _; left; reflexivity | reflexivity].
  - destruct (Z.ltb_spec (scoreMicSegment seg (getMicSegment (MicCount cand))
                            (WaitSeconds cand)) 0) as [Hneg|Hpos]; simpl.
    + split; [intros _; right; exact Hneg | reflexivity].
    + split; [discriminate | intros [H|H]; [discriminate H | lia]].
Qed.

(** What eligibility guarantees about the candidate. *)
Lemma eligible_guarantees (cur : Entity) (uid : string) (cfg : MatchConfig)
    (now : Z) (cand : Entity) :
  Rejected (pairDetail cur uid cfg now cand) = false ->
  (uid ∉ Blacklist cand)
  /\ (forall t, LastMatchedUsers cand !! uid = Some t ->
                RecentMatchCooldown cfg <= int64 (now - t))
  /\ (WaitSeconds cand < 60 ->
      getMicSegment (MicCount cur) = getMicSegment (MicCount cand)).
Proof.
  unfold pairDetail.
  set (s := getMicSegment (MicCount cur)). set (c := getMicSegment (MicCount cand)).
  destruct (scoreMicSegment_sign s c (WaitSeconds cand)) as (_ & Hshort & _).
  pose proof (scoreMatchDetailed_rejected_iff cur cand uid cfg now s) as Hrej.
  fold c in Hrej. intros Hacc.
  assert (Hq : fst (quickReject cur cand uid cfg now) <> true)
    by (intros H; rewrite (proj2 Hrej (or_introl H)) in Hacc; discriminate Hacc).
  assert (Hseg : ~ scoreMicSegment s c (WaitSeconds cand) < 0)
    by (intros H; rewrite (proj2 Hrej (or_intror H)) in Hacc; discriminate Hacc).
  destruct (quickReject_cases cur cand uid cfg now)
    as [[Hc _]|[(t & Hc & _)|[(Hc & _)|(Hc & Hnin & Hcool & _)]]];
    try (rewrite Hc in Hq; simpl in Hq; congruence).
  split; [exact Hnin|]. split; [exact Hcool|]. intros Hw.
  destruct (Z.eq_dec s c) as [Heq|Hne]; [exact Heq|].
  rewrite (Hshort Hne Hw) in Hseg. lia.
Qed.

(** X6.  A pair is eligible exactly when the candidate does not blacklist
    the seeker, any earlier match between them is at least the cooldown
    old, and a candidate that has waited less than 60 seconds sits in the
    seeker's own tier. *)
Theorem pairDetail_eligible_iff (cur : Entity) (uid : string) (cfg : MatchConfig)
    (now : Z) (cand : Entity) :
  Rejected (pairDetail cur uid cfg now cand) = false
  <-> (uid ∉ Blacklist cand)
      /\ (forall t, LastMatchedUsers cand !! uid = Some t ->
                    RecentMatchCooldown cfg <= int64 (now - t))
      /\ (WaitSeconds cand < 60 ->
          getMicSegment (MicCount cur) = getMicSegment (MicCount cand)).
Proof.
  split; [apply eligible_guarantees|].
  unfold pairDetail.
  set (s := getMicSegment (MicCount cur)). set (c := getMicSegment (MicCount cand)).
  destruct (scoreMicSegment_sign s c (WaitSeconds cand)) as (Hsame & _ & Hlong).
  pose proof (scoreMatchDetailed_rejected_iff cur cand uid cfg now s) as Hrej.
  fold c in Hrej.
  intros (Hnin & Hcool & Htier).
  destruct (Rejected (scoreMatchDetailed cur cand uid cfg now s)) eqn:Hr;
    [|reflexivity].
  destruct (proj1 Hrej eq_refl) as [Hq|Hneg].
  - destruct (quickReject_cases cur cand uid cfg now)
      as [[_ Hin]|[(t & _ & _ & Hlast & Hlt)|[(_ & _ & _ & Hw & Hne)|(Hc & _)]]].
    + contradiction.
    + specialize (Hcool t Hlast). lia.
    + destruct (Hne (Htier Hw)).
    + rewrite Hc in Hq. discriminate Hq.
  - destruct (Z.eq_dec s c) as [Heq|Hne].
    + rewrite (Hsame Heq) in Hneg. lia.
    + destruct (Z.lt_ge_cases (WaitSeconds cand) 60) as [Hw|Hw].
      * destruct (Hne (Htier Hw)).
      * destruct (Hlong Hne Hw) as [H|H]; rewrite H in Hneg; lia.
Qed.

Lemma pairDetail_eligible_iff_witness :
  let seeker := mkEntity "s" ∅ ∅ 3 50 80 0 ActivityLow in
  let cand := mkEntity "c" {[ "seeker" := 400 ]} ∅ 9 50 90 0 ActivityLow in
  Rejected (pairDetail seeker "seeker" DefaultMatchConfig 1000 cand) = false.
Proof.
  cbv zeta. apply pairDetail_eligible_iff. split; [|split].
  - simpl. apply not_elem_of_empty.
  - intros t Ht. simpl in Ht. rewrite lookup_singleton_eq in Ht.
    injection Ht as <-. vm_compute. discriminate.
  - simpl. lia.
Defined.

Lemma reason_nonempty (reason : string) :
  reason = reasonBlacklisted \/ (exists n, reason = reasonCooldown n)
  \/ (exists a b, reason = reasonSegmentGap a b) \/ reason = reasonSegmentMismatch ->
  reason <> "".
Proof.
  intros [->|[[n ->]|[(a & b & ->)| ->]]]; unfold reasonBlacklisted, reasonCooldown,
    reasonSegmentGap, reasonSegmentMismatch; simpl; discriminate.
Qed.

(** X7.  A detail carries a reason exactly when it is rejected: the reason
    of an eligible pair is empty, and the reason of a rejected pair is one
    of the four messages, none of which is empty. *)
Theorem scoreMatchDetailed_reason (cur cand : Entity) (uid : string)
    (cfg : MatchConfig) (now seg : Z) :
  let d := scoreMatchDetailed cur cand uid cfg now seg in
  (RejectReason d = "" <-> Rejected d = false)
  /\ (Rejected d = true <->
      RejectReason d = reasonBlacklisted
      \/ (exists n, RejectReason d = reasonCooldown n)
      \/ (exists a b, RejectReason d = reasonSegmentGap a b)
      \/ RejectReason d = reasonSegmentMismatch).
Proof.
  cbv zeta.
  assert (Hshape :
    (Rejected (scoreMatchDetailed cur cand uid cfg now seg) = false
     /\ RejectReason (scoreMatchDetailed cur cand uid cfg now seg) = "")
    \/ (Rejected (scoreMatchDetailed cur cand uid cfg now seg) = true
        /\ (RejectReason (scoreMatchDetailed cur cand uid cfg now seg) = reasonBlacklisted
            \/ (exists n, RejectReason (scoreMatchDetailed cur cand uid cfg now seg)
                          = reasonCooldown n)
            \/ (exists a b, RejectReason (scoreMatchDetailed cur cand uid cfg now seg)
                            = reasonSegmentGap a b)
            \/ RejectReason (scoreMatchDetailed cur cand uid cfg now seg)
               = reasonSegmentMismatch))).
  { unfold scoreMatchDetailed. cbv zeta.
    destruct (quickReject_cases cur cand uid cfg now)
      as [[Hc _]|[(t & Hc & _)|[(Hc & _)|(Hc & _)]]]; rewrite Hc; cbv iota beta.
    - right. split; [reflexivity|]. left. reflexivity.
    - right. split; [reflexivity|]. right. left. eexists. reflexivity.
    - right. split; [reflexivity|]. right. right. left. eexists _, _. reflexivity.
    - destruct (_ <? 0).
      + right. split; [reflexivity|]. right. right. right. reflexivity.
      + left. split; reflexivity. }
  destruct Hshape as [[Hacc Hr]|[Hrej Hr]].
  - rewrite Hacc, Hr. split; [split; reflexivity|]. split; [discriminate|].
    intros H. destruct (reason_nonempty "" H eq_refl).
  - rewrite Hrej. split.
    + split; [|discriminate]. intros H. destruct (reason_nonempty _ Hr H).
    + split; [intros _; exact Hr | reflexivity].
Qed.

(** X8.  The bare score tells rejection apart: [scoreMatch] is -999 for a
    rejected pair and lies in [0, 13132] for an eligible one, so it is
    negative exactly when the pair is rejected. *)
Theorem scoreMatch_negative_iff_rejected (cur cand : Entity) (uid : string)
    (cfg : MatchConfig) (now seg : Z) :
  let d := scoreMatchDetailed cur cand uid cfg now seg in
  (scoreMatch cur cand uid cfg now seg < 0 <-> Rejected d = true)
  /\ (scoreMatch cur cand uid cfg now seg = -999
      \/ 0 <= scoreMatch cur cand uid cfg now seg <= 13132).
Proof.
  cbv zeta. unfold scoreMatch.
  destruct (Rejected (scoreMatchDetailed cur cand uid cfg now seg)) eqn:Hr.
  - rewrite (scoreMatchDetailed_rejected _ _ _ _ _ _ Hr).
    split; [split; [reflexivity | intros _; lia] | left; reflexivity].
  - destruct (scoreMatchDetailed_accepted cur cand uid cfg now seg Hr) as [_ Hrange].
    split; [split; [intros H; lia | discriminate] | right; exact Hrange].
Qed.

(** X9.  A candidate whose blacklist holds the seeker's identifier is
    rejected with the blacklist reason whatever its other attributes, the
    configuration and the time; no component score is computed. *)
Theorem scoreMatchDetailed_blacklisted (cur cand : Entity) (uid : string)
    (cfg : MatchConfig) (now seg : Z) :
  uid ∈ Blacklist cand ->
  scoreMatchDetailed cur cand uid cfg now seg
  = {| DetailEntity := cand; Score := -999;
       WaitScore := 0; SegmentScore := 0; AudienceScore := 0;
       HistoryScore := 0; ActivityScore := 0;
       CurrentSegment := seg;
       CandidateSegment := getMicSegment (MicCount cand);
       Rejected := true; RejectReason := reasonBlacklisted |}.
Proof.
  intros Hin. unfold scoreMatchDetailed, quickReject. cbv zeta.
  destruct (decide (uid ∈ Blacklist cand)); [reflexivity | contradiction].
Qed.

Lemma scoreMatchDetailed_blacklisted_witness :
  let seeker := mkEntity "s" ∅ ∅ 3 50 80 0 ActivityLow in
  let cand := mkEntity "c" ∅ {[ "seeker" ]} 3 50 80 12 ActivityHigh in
  ("seeker" ∈ Blacklist cand)
  /\ Rejected (scoreMatchDetailed seeker cand "seeker" DefaultMatchConfig 1000 1) = true.
Proof.
  cbv zeta.
  assert (Hin : "seeker" ∈ Blacklist
                  (mkEntity "c" ∅ {[ "seeker" ]} 3 50 80 12 ActivityHigh))
    by (simpl; apply elem_of_singleton; reflexivity).
  split; [exact Hin|].
  rewrite (scoreMatchDetailed_blacklisted _ _ _ DefaultMatchConfig 1000 1 Hin).
  reflexivity.
Defined.

(** X10.  The pre-emptive segment-gap check never decides eligibility on
    its own: whenever the filter rejects with the segment-gap reason, the
    candidate has waited less than 60 seconds in another tier, and the
    segment-consistency score of the pair is the rejection value. *)
Theorem quickReject_gap_subsumed (cur cand : Entity) (uid : string)
    (cfg : MatchConfig) (now a b : Z) :
  quickReject cur cand uid cfg now = (true, reasonSegmentGap a b) ->
  WaitSeconds cand < 60
  /\ getMicSegment (MicCount cur) <> getMicSegment (MicCount cand)
  /\ scoreMicSegment (getMicSegment (MicCount cur)) (getMicSegment (MicCount cand))
       (WaitSeconds cand) = -999.
Proof.
  intros Hq.
  destruct (quickReject_cases cur cand uid cfg now)
    as [[Hc _]|[(t & Hc & _)|[(_ & _ & _ & Hw & Hne)|(Hc & _)]]].
  - rewrite Hc in Hq. apply reason_of_rejection in Hq.
    destruct (reasonBlacklisted_not_segmentGap _ _ Hq).
  - rewrite Hc in Hq. apply reason_of_rejection in Hq.
    destruct (reasonCooldown_not_segmentGap _ _ _ Hq).
  - split; [exact Hw|]. split; [exact Hne|].
    apply scoreMicSegment_sign; assumption.
  - rewrite Hc in Hq. discriminate Hq.
Qed.

Lemma quickReject_gap_subsumed_witness :
  let seeker := mkEntity "s" ∅ ∅ 0 50 80 0 ActivityLow in
  let cand := mkEntity "c" ∅ ∅ 9 50 10 0 ActivityLow in
  quickReject seeker cand "seeker" DefaultMatchConfig 1000 = (true, reasonSegmentGap 0 3)
  /\ scoreMicSegment (getMicSegment (MicCount seeker)) (getMicSegment (MicCount cand))
       (WaitSeconds cand) = -999.
Proof.
  cbv zeta.
  assert (Hq : quickReject (mkEntity "s" ∅ ∅ 0 50 80 0 ActivityLow)
                 (mkEntity "c" ∅ ∅ 9 50 10 0 ActivityLow) "seeker"
                 DefaultMatchConfig 1000 = (true, reasonSegmentGap 0 3))
    by (vm_compute; reflexivity).
  split; [exact Hq|].
  exact (proj2 (proj2 (quickReject_gap_subsumed _ _ _ _ _ _ _ Hq))).
Defined.

(** ** Activity levels by name *)

(** X11.  Printing a named level and parsing it back returns the level;
    every other [uint8] value prints as "low" and every unknown name parses
    to low, so printing after parsing after printing changes nothing. *)
Theorem ActivityLevel_round_trip (a : Z) (name : string) :
  (0 <= a <= 2 -> ParseActivityLevel (ActivityLevel_String a) = a)
  /\ (~ 0 <= a <= 2 -> ParseActivityLevel (ActivityLevel_String a) = ActivityLow)
  /\ ActivityLevel_String (ParseActivityLevel (ActivityLevel_String a))
     = ActivityLevel_String a
  /\ (ActivityLevel_String (ParseActivityLevel name) = name
      <-> name = "high" \/ name = "medium" \/ name = "low").
Proof.
  unfold ParseActivityLevel, ActivityLevel_String, ActivityHigh, ActivityMedium,
    ActivityLow.
  split; [|split; [|split]].
  - intros Ha. assert (H : a = 0 \/ a = 1 \/ a = 2) by lia.
    destruct H as [->|[->| ->]]; reflexivity.
  - intros Ha. destruct (Z.eqb_spec a 2); [lia|]. destruct (Z.eqb_spec a 1); [lia|].
    reflexivity.
  - destruct (a =? 2); [reflexivity|]. destruct (a =? 1); reflexivity.
  - destruct (decide (name = "high")) as [->|Hh]; [split; [auto|reflexivity]|].
    destruct (decide (name = "medium")) as [->|Hm].
    + split; [auto|reflexivity].
    + simpl. split; [intros <-; auto|].
      intros [H|[H|H]]; [contradiction | contradiction | symmetry; exact H].
Qed.

Lemma ActivityLevel_round_trip_witness :
  0 <= ActivityMedium <= 2
  /\ ParseActivityLevel (ActivityLevel_String ActivityMedium) = ActivityMedium.
Proof.
  assert (Ha : 0 <= ActivityMedium <= 2) by (unfold ActivityMedium; lia).
  split; [exact Ha|].
  exact (proj1 (ActivityLevel_round_trip ActivityMedium "medium") Ha).
Defined.

(** * Further properties of the matcher *)

Lemma tiedAtMaximum_members cur pool uid cfg now c :
  In c (tiedAtMaximum cur pool uid cfg now) ->
  In c pool
  /\ Rejected (pairDetail cur uid cfg now c) = false
  /\ forall c', In c' pool -> Rejected (pairDetail cur uid cfg now c') = false ->
       Score (pairDetail cur uid cfg now c') <= Score (pairDetail cur uid cfg now c).
Proof.
  unfold tiedAtMaximum. intros Hc. apply filter_In in Hc as [Hin Hb].
  split; [exact Hin|]. split.
  - apply best_accepted in Hb. unfold accepted in Hb. apply negb_true_iff. exact Hb.
  - intros c' Hin' Hacc'. apply (best_total cur uid cfg now pool c c' Hb Hin').
    unfold accepted. rewrite Hacc'. reflexivity.
Qed.

Lemma tiedAtMaximum_empty_iff cur pool uid cfg now :
  tiedAtMaximum cur pool uid cfg now = []
  <-> forall c, In c pool -> Rejected (pairDetail cur uid cfg now c) = true.
Proof.
  split.
  - intros Hnil c Hin.
    destruct (Rejected (pairDetail cur uid cfg now c)) eqn:Hr; [reflexivity|].
    exfalso.
    destruct (detailed_scan cur uid cfg now pool) as [_ Hpos]. cbv zeta in Hpos.
    assert (Hacc : accepted cur uid cfg now c = true)
      by (unfold accepted; rewrite Hr; reflexivity).
    pose proof (runningMax_upper (accepted cur uid cfg now) (total cur uid cfg now)
                  pool (-1000) c Hin Hacc) as Hup.
    pose proof (total_accepted cur uid cfg now c Hacc) as Hge.
    destruct Hpos as [_ Hne]; [lia|]. exact (Hne Hnil).
  - intros Hall.
    destruct (tiedAtMaximum cur pool uid cfg now) as [|c l] eqn:Ht; [reflexivity|].
    assert (Hc : In c (tiedAtMaximum cur pool uid cfg now)) by (rewrite Ht; left; reflexivity).
    apply tiedAtMaximum_members in Hc as (Hin & Hacc & _).
    rewrite (Hall c Hin) in Hacc. discriminate Hacc.
Qed.

(** The selection, step by step. *)
Lemma selectAmongTied_run cur pool uid cfg w :
  let now := unixClock w (clockReads w) in
  let tied := tiedAtMaximum cur pool uid cfg now in
  selectAmongTied cur pool uid cfg w
  = match pool, tied with
    | [], _ => (Ret None, w)
    | _ :: _, [] =>
        (Ret None,
         {| unixClock := unixClock w; clockReads := S (clockReads w);
            randSource := randSource w; randDraws := randDraws w |})
    | _ :: _, _ :: _ =>
        (Ret (tied !! (randSource w (randDraws w) mod length tied)%nat),
         {| unixClock := unixClock w; clockReads := S (clockReads w);
            randSource := randSource w; randDraws := S (randDraws w) |})
    end.
Proof.
  cbv zeta. unfold selectAmongTied. destruct pool as [|c0 pool']; [reflexivity|].
  unfold bind at 1, timeNowUnix. cbv beta iota.
  destruct (tiedAtMaximum _ _ _ _ _) as [|t tied]; [reflexivity|].
  reflexivity.
Qed.

Lemma selectAmongTied_world cur pool uid cfg w :
  exists sel w',
    selectAmongTied cur pool uid cfg w = (Ret sel, w')
    /\ unixClock w' = unixClock w /\ randSource w' = randSource w
    /\ clockReads w' = match pool with
                       | [] => clockReads w
                       | _ :: _ => S (clockReads w)
                       end
    /\ randDraws w' = match sel with
                      | Some _ => S (randDraws w)
                      | None => randDraws w
                      end.
Proof.
  pose proof (selectAmongTied_run cur pool uid cfg w) as Hrun. cbv zeta in Hrun.
  rewrite Hrun. clear Hrun.
  destruct pool as [|c0 pool']; [eexists _, _; repeat split|].
  destruct (tiedAtMaximum _ _ _ _ _) as [|t tied] eqn:Ht;
    [eexists _, _; repeat split|].
  destruct (lookup_draw tied t (randSource w (randDraws w))) as [a Ha].
  rewrite Ha. eexists _, _. repeat split.
Qed.


(** X13.  The detailed matcher returns no candidate exactly when every
    pool member is rejected (an empty pool included), and either way it
    hands back one detail per pool member, in pool order. *)
Theorem matchEntityDetailed_none_iff_all_rejected
    (cur : Entity) (pool : list Entity) (uid : string) (cfg : MatchConfig)
    (w : World) :
  let d := pairDetail cur uid cfg (unixClock w (clockReads w)) in
  exists sel w',
    matchEntityDetailed cur pool uid cfg w = (Ret (sel, map d pool), w')
    /\ length (map d pool) = length pool
    /\ (sel = None <-> forall c, In c pool -> Rejected (d c) = true).
Proof.
  cbv zeta. rewrite matchEntityDetailed_run. unfold bind.
  pose proof (selectAmongTied_run cur pool uid cfg w) as Hrun. cbv zeta in Hrun.
  rewrite Hrun. clear Hrun.
  pose proof (tiedAtMaximum_empty_iff cur pool uid cfg (unixClock w (clockReads w)))
    as Hempty.
  destruct pool as [|c0 pool'].
  - eexists _, _. split; [reflexivity|]. split; [reflexivity|].
    split; [intros _ c []|reflexivity].
  - destruct (tiedAtMaximum _ _ _ _ _) as [|t tied] eqn:Ht.
    + eexists _, _. split; [reflexivity|]. split; [apply length_map|].
      split; [intros _; apply Hempty; reflexivity | reflexivity].
    + destruct (lookup_draw tied t (randSource w (randDraws w))) as [a Ha].
      rewrite Ha. eexists _, _. split; [reflexivity|]. split; [apply length_map|].
      split; [discriminate|]. intros Hall. apply Hempty in Hall. discriminate Hall.
Qed.

(** Whatever a matcher call returns is a non-rejected pool member of
    maximal total. *)
Lemma selectAmongTied_sound cur pool uid cfg w c w' :
  selectAmongTied cur pool uid cfg w = (Ret (Some c), w') ->
  In c (tiedAtMaximum cur pool uid cfg (unixClock w (clockReads w))).
Proof.
  pose proof (selectAmongTied_run cur pool uid cfg w) as Hrun. cbv zeta in Hrun.
  rewrite Hrun. clear Hrun.
  destruct pool as [|c0 pool']; [discriminate|].
  destruct (tiedAtMaximum _ _ _ _ _) as [|t tied] eqn:Ht; [discriminate|].
  intros H. injection H as H _.
  apply list_elem_of_In. eapply list_elem_of_lookup_2. exact H.
Qed.

(** X14.  A candidate returned by the matcher is a member of the pool, is
    not rejected, and no non-rejected pool member has a larger total. *)
Theorem matchEntity_selects_best (cur : Entity) (pool : list Entity) (uid : string)
    (cfg : MatchConfig) (w w' : World) (c : Entity) :
  matchEntity cur pool uid cfg w = (Ret (Some c), w') ->
  let d := pairDetail cur uid cfg (unixClock w (clockReads w)) in
  In c pool
  /\ Rejected (d c) = false
  /\ forall c', In c' pool -> Rejected (d c') = false -> Score (d c') <= Score (d c).
Proof.
  rewrite matchEntity_run. intros Hsel. cbv zeta.
  apply tiedAtMaximum_members. apply (selectAmongTied_sound _ _ _ _ _ _ _ Hsel).
Qed.

Lemma matchEntity_selects_best_witness :
  let seeker := mkEntity "s" ∅ ∅ 3 50 80 0 ActivityLow in
  let a := mkEntity "a" ∅ ∅ 3 50 80 12 ActivityHigh in
  let b := mkEntity "b" ∅ ∅ 9 50 80 2 ActivityLow in
  let w := mkWorld (fun _ => 1000) 0 (fun k => k) 0 in
  let w' := mkWorld (fun _ => 1000) 1 (fun k => k) 1 in
  matchEntity seeker [b; a] "seeker" DefaultMatchConfig w = (Ret (Some a), w')
  /\ In a [b; a].
Proof.
  cbv zeta.
  assert (Hrun : matchEntity (mkEntity "s" ∅ ∅ 3 50 80 0 ActivityLow)
                   [mkEntity "b" ∅ ∅ 9 50 80 2 ActivityLow;
                    mkEntity "a" ∅ ∅ 3 50 80 12 ActivityHigh]
                   "seeker" DefaultMatchConfig (mkWorld (fun _ => 1000) 0 (fun k => k) 0)
                 = (Ret (Some (mkEntity "a" ∅ ∅ 3 50 80 12 ActivityHigh)),
                    mkWorld (fun _ => 1000) 1 (fun k => k) 1))
    by (vm_compute; reflexivity).
  split; [exact Hrun|].
  exact (proj1 (matchEntity_selects_best _ _ _ _ _ _ _ Hrun)).
Defined.

(** X15.  A candidate returned by the matcher never blacklists the seeker,
    is never inside the cooldown with it, and, if it has waited less than
    60 seconds, is in the seeker's own tier. *)
Theorem matchEntity_respects_filter (cur : Entity) (pool : list Entity)
    (uid : string) (cfg : MatchConfig) (w w' : World) (c : Entity) :
  matchEntity cur pool uid cfg w = (Ret (Some c), w') ->
  (uid ∉ Blacklist c)
  /\ (forall t, LastMatchedUsers c !! uid = Some t ->
        RecentMatchCooldown cfg <= int64 (unixClock w (clockReads w) - t))
  /\ (WaitSeconds c < 60 ->
      getMicSegment (MicCount cur) = getMicSegment (MicCount c)).
Proof.
  rewrite matchEntity_run. intros Hsel.
  apply selectAmongTied_sound in Hsel.
  apply tiedAtMaximum_members in Hsel as (_ & Hacc & _).
  apply (eligible_guarantees _ _ _ _ _ Hacc).
Qed.

Lemma matchEntity_respects_filter_witness :
  let seeker := mkEntity "s" ∅ ∅ 3 50 80 0 ActivityLow in
  let a := mkEntity "a" ∅ ∅ 3 50 80 12 ActivityHigh in
  let blocked := mkEntity "b" ∅ {[ "seeker" ]} 3 50 200 19 ActivityHigh in
  let w := mkWorld (fun _ => 1000) 0 (fun k => k) 0 in
  let w' := mkWorld (fun _ => 1000) 1 (fun k => k) 1 in
  matchEntity seeker [blocked; a] "seeker" DefaultMatchConfig w = (Ret (Some a), w')
  /\ ("seeker" ∉ Blacklist a).
Proof.
  cbv zeta.
  assert (Hrun : matchEntity (mkEntity "s" ∅ ∅ 3 50 80 0 ActivityLow)
                   [mkEntity "b" ∅ {[ "seeker" ]} 3 50 200 19 ActivityHigh;
                    mkEntity "a" ∅ ∅ 3 50 80 12 ActivityHigh]
                   "seeker" DefaultMatchConfig (mkWorld (fun _ => 1000) 0 (fun k => k) 0)
                 = (Ret (Some (mkEntity "a" ∅ ∅ 3 50 80 12 ActivityHigh)),
                    mkWorld (fun _ => 1000) 1 (fun k => k) 1))
    by (vm_compute; reflexivity).
  split; [exact Hrun|].
  exact (proj1 (matchEntity_respects_filter _ _ _ _ _ _ _ Hrun)).
Defined.

(** X16.  When one non-rejected pool member outscores every other
    non-rejected member, the matcher returns it whatever the generator
    draws; in particular a pool with a single eligible member returns that
    member. *)
Theorem matchEntity_unique_best (cur : Entity) (pool : list Entity) (uid : string)
    (cfg : MatchConfig) (w : World) (cand : Entity) :
  let d := pairDetail cur uid cfg (unixClock w (clockReads w)) in
  In cand pool ->
  Rejected (d cand) = false ->
  (forall c, In c pool ->
     c = cand \/ Rejected (d c) = true \/ Score (d c) < Score (d cand)) ->
  exists w', matchEntity cur pool uid cfg w = (Ret (Some cand), w').
Proof.
  cbv zeta. intros Hin Hacc Hothers. rewrite matchEntity_run.
  apply selectAmongTied_unique_best; assumption.
Qed.

Lemma matchEntity_unique_best_witness :
  let seeker := mkEntity "s" ∅ ∅ 3 50 80 0 ActivityLow in
  let a := mkEntity "a" ∅ ∅ 3 50 80 12 ActivityHigh in
  let blocked := mkEntity "b" ∅ {[ "seeker" ]} 3 50 200 19 ActivityHigh in
  let w := mkWorld (fun _ => 1000) 0 (fun k => 7%nat) 0 in
  exists w', matchEntity seeker [blocked; a] "seeker" DefaultMatchConfig w
             = (Ret (Some a), w').
Proof.
  cbv zeta. apply matchEntity_unique_best.
  - right. left. reflexivity.
  - vm_compute. reflexivity.
  - intros c [<-|[<-|[]]].
    + right. left. vm_compute. reflexivity.
    + left. reflexivity.
Defined.

(** * Further properties of the batch matcher *)

Lemma matchEntity_in_pool cur pool uid cfg w c w' :
  matchEntity cur pool uid cfg w = (Ret (Some c), w') -> In c pool.
Proof.
  rewrite matchEntity_run. intros Hsel.
  apply selectAmongTied_sound in Hsel.
  apply tiedAtMaximum_members in Hsel as [Hin _]. exact Hin.
Qed.

(** A recorded selection comes from a present seeker at the same position
    and names a pool member. *)
Lemma batchSelections_entry pool userIDs cfg rooms i w n k c :
  batchSelections pool userIDs cfg rooms i w !! n = Some (Some (k, c)) ->
  In c pool /\ exists room, rooms !! n = Some (Some room) /\ ID room = k.
Proof.
  revert i w n. induction rooms as [|r rooms IH]; intros i w n Hn; [discriminate Hn|].
  cbn [batchSelections] in Hn.
  destruct r as [r|]; [destruct (userIDs !! i) as [userID|]|].
  - destruct (matchEntity r pool userID cfg w) as [[matched|msg] w1] eqn:Hm;
      [|discriminate Hn].
    destruct n as [|n].
    + destruct matched as [c0|]; [|discriminate Hn].
      injection Hn as <- <-. split; [exact (matchEntity_in_pool _ _ _ _ _ _ _ Hm)|].
      exists r. split; reflexivity.
    + destruct (IH _ _ _ Hn) as [Hin (room & Hroom & Hid)].
      split; [exact Hin|]. exists room. split; assumption.
  - destruct n as [|n]; [discriminate Hn|].
    destruct (IH _ _ _ Hn) as [Hin (room & Hroom & Hid)].
    split; [exact Hin|]. exists room. split; assumption.
  - destruct n as [|n]; [discriminate Hn|].
    destruct (IH _ _ _ Hn) as [Hin (room & Hroom & Hid)].
    split; [exact Hin|]. exists room. split; assumption.
Qed.

(** A batch call that returns has run the loop on lists of equal length. *)
Lemma batchMatchEntities_returns rooms pool userIDs cfg w m w' :
  batchMatchEntities rooms pool userIDs cfg w = (Ret m, w') ->
  length rooms = length userIDs
  /\ m = applySelections (batchSelections pool userIDs cfg rooms 0 w) ∅.
Proof.
  unfold batchMatchEntities.
  destruct (Nat.eqb_spec (length rooms) (length userIDs)) as [Hlen|Hne];
    [|discriminate].
  cbn [negb]. intros Hrun.
  destruct (batchLoop_applies pool userIDs cfg rooms 0 ∅ w) as [w'' Hloop].
  rewrite Hloop in Hrun. injection Hrun as <- _. split; [exact Hlen|reflexivity].
Qed.

(** X17.  Every entry of a returned mapping sends the ID of a seeker that
    is present in the batch to a member of the pool. *)
Theorem batchMatchEntities_entries (rooms : list (option Entity))
    (pool : list Entity) (userIDs : list string) (cfg : MatchConfig)
    (w w' : World) (m : gmap string Entity) (k : string) (c : Entity) :
  batchMatchEntities rooms pool userIDs cfg w = (Ret m, w') ->
  m !! k = Some c ->
  In c pool /\ exists i room, rooms !! i = Some (Some room) /\ ID room = k.
Proof.
  intros Hrun Hk.
  destruct (batchMatchEntities_returns _ _ _ _ _ _ _ Hrun) as [_ ->].
  apply applySelections_lookup in Hk.
  destruct Hk as [(i & Hi & _)|[Hk _]]; [|rewrite lookup_empty in Hk; discriminate Hk].
  destruct (batchSelections_entry _ _ _ _ _ _ _ _ _ Hi) as [Hin (room & Hroom & Hid)].
  split; [exact Hin|]. exists i, room. split; assumption.
Qed.

Lemma batchMatchEntities_entries_witness :
  let s := mkEntity "s" ∅ ∅ 3 50 80 0 ActivityLow in
  let a := mkEntity "a" ∅ ∅ 3 50 80 12 ActivityHigh in
  let w := mkWorld (fun _ => 1000) 0 (fun k => k) 0 in
  let w' := mkWorld (fun _ => 1000) 1 (fun k => k) 1 in
  batchMatchEntities [None; Some s] [a] ["u1"; "u2"] DefaultMatchConfig w
  = (Ret {[ "s" := a ]}, w')
  /\ ({[ "s" := a ]} : gmap string Entity) !! "s" = Some a
  /\ In a [a].
Proof.
  cbv zeta.
  assert (Hrun : batchMatchEntities
                   [None; Some (mkEntity "s" ∅ ∅ 3 50 80 0 ActivityLow)]
                   [mkEntity "a" ∅ ∅ 3 50 80 12 ActivityHigh] ["u1"; "u2"]
                   DefaultMatchConfig (mkWorld (fun _ => 1000) 0 (fun k => k) 0)
                 = (Ret {[ "s" := mkEntity "a" ∅ ∅ 3 50 80 12 ActivityHigh ]},
                    mkWorld (fun _ => 1000) 1 (fun k => k) 1))
    by (vm_compute; reflexivity).
  assert (Hk : ({[ "s" := mkEntity "a" ∅ ∅ 3 50 80 12 ActivityHigh ]}
                  : gmap string Entity) !! "s"
               = Some (mkEntity "a" ∅ ∅ 3 50 80 12 ActivityHigh))
    by apply lookup_singleton_eq.
  split; [exact Hrun|]. split; [exact Hk|].
  exact (proj1 (batchMatchEntities_entries _ _ _ _ _ _ _ _ _ Hrun Hk)).
Defined.

Lemma batchLoop_nothing_to_do pool userIDs cfg rooms i results w :
  pool = [] \/ Forall (fun room => room = None) rooms ->
  batchLoop pool userIDs cfg rooms i results w = (Ret results, w).
Proof.
  revert i. induction rooms as [|r rooms IH]; intros i Hcase; [reflexivity|].
  assert (Hrest : pool = [] \/ Forall (fun room => room = None) rooms).
  { destruct Hcase as [H|H]; [left; exact H|right]. inversion H; assumption. }
  cbn [batchLoop]. destruct r as [r|]; [destruct (userIDs !! i) as [userID|]|];
    try (apply IH; exact Hrest).
  destruct Hcase as [->|H]; [|inversion H; discriminate].
  unfold bind. cbn [matchEntity length Nat.eqb ret]. apply IH. left. reflexivity.
Qed.

(** X18.  A batch over an empty pool, or one in which every seeker is
    absent, returns the empty mapping and reads neither the clock nor the
    generator. *)
Theorem batchMatchEntities_nothing_to_do (rooms : list (option Entity))
    (pool : list Entity) (userIDs : list string) (cfg : MatchConfig) (w : World) :
  length rooms = length userIDs ->
  pool = [] \/ Forall (fun room => room = None) rooms ->
  batchMatchEntities rooms pool userIDs cfg w = (Ret ∅, w).
Proof.
  intros Hlen Hcase. unfold batchMatchEntities.
  destruct (Nat.eqb_spec (length rooms) (length userIDs)); [|contradiction].
  apply batchLoop_nothing_to_do. exact Hcase.
Qed.

Lemma batchMatchEntities_nothing_to_do_witness :
  let s := mkEntity "s" ∅ ∅ 3 50 80 0 ActivityLow in
  let w := mkWorld (fun _ => 1000) 0 (fun k => k) 0 in
  length [Some s; None] = length ["u1"; "u2"]
  /\ batchMatchEntities [Some s; None] [] ["u1"; "u2"] DefaultMatchConfig w = (Ret ∅, w).
Proof.
  cbv zeta.
  assert (Hlen : length [Some (mkEntity "s" ∅ ∅ 3 50 80 0 ActivityLow); None]
                 = length ["u1"; "u2"]) by reflexivity.
  split; [exact Hlen|].
  apply (batchMatchEntities_nothing_to_do _ _ _ _ _ Hlen). left. reflexivity.
Defined.

Lemma applySelections_size sels (results : gmap string Entity) :
  (size (applySelections sels results) <= size results + length (omap id sels))%nat.
Proof.
  revert results. induction sels as [|sel sels IH]; intros results.
  - unfold applySelections. simpl. lia.
  - change (applySelections (sel :: sels) results)
      with (applySelections sels (match sel with
                                  | Some (k0, c0) => <[k0 := c0]> results
                                  | None => results
                                  end)).
    etransitivity; [apply IH|].
    destruct sel as [[k0 c0]|]; cbn [omap list_omap id length].
    + rewrite map_size_insert. destruct (results !! k0); unfold id; lia.
    + lia.
Qed.

(** The loop's trace in the world: one clock reading per present seeker,
    one draw per recorded selection. *)
Lemma batchLoop_world pool userIDs cfg rooms i results w :
  (forall j, (j < length rooms)%nat -> is_Some (userIDs !! (i + j)%nat)) ->
  exists w',
    batchLoop pool userIDs cfg rooms i results w
    = (Ret (applySelections (batchSelections pool userIDs cfg rooms i w) results), w')
    /\ unixClock w' = unixClock w /\ randSource w' = randSource w
    /\ clockReads w' = (clockReads w + match pool with
                                       | [] => 0
                                       | _ :: _ => length (omap id rooms)
                                       end)%nat
    /\ randDraws w'
       = (randDraws w
          + length (omap id (batchSelections pool userIDs cfg rooms i w)))%nat.
Proof.
  revert i results w. induction rooms as [|r rooms IH]; intros i results w Hids.
  - exists w. cbn. repeat split; destruct pool; lia.
  - assert (Hids' : forall j, (j < length rooms)%nat ->
                              is_Some (userIDs !! (S i + j)%nat)).
    { intros j Hj. replace (S i + j)%nat with (i + S j)%nat by lia.
      apply Hids. simpl. lia. }
    cbn [batchLoop batchSelections]. destruct r as [r|].
    + destruct (Hids 0%nat) as [userID Hid]; [simpl; lia|].
      rewrite Nat.add_0_r in Hid. rewrite Hid. unfold bind.
      rewrite matchEntity_run.
      destruct (selectAmongTied_world r pool userID cfg w)
        as (matched & w1 & Hm & Hclock & Hrand & Hreads & Hdraws).
      rewrite Hm.
      destruct (IH (S i) (match matched with
                          | Some m => <[ID r := m]> results
                          | None => results
                          end) w1 Hids')
        as (w' & Hloop & Hclock' & Hrand' & Hreads' & Hdraws').
      exists w'. rewrite Hloop. split; [destruct matched; reflexivity|].
      split; [congruence|]. split; [congruence|].
      cbn [omap list_omap id length]. split.
      * rewrite Hreads', Hreads. destruct pool; lia.
      * rewrite Hdraws', Hdraws. destruct matched; cbn [fmap option_fmap option_map
          omap list_omap id length]; lia.
    + destruct (IH (S i) results w Hids')
        as (w' & Hloop & Hclock' & Hrand' & Hreads' & Hdraws').
      exists w'. rewrite Hloop. split; [reflexivity|].
      split; [exact Hclock'|]. split; [exact Hrand'|].
      cbn [omap list_omap id length]. split; [exact Hreads' | exact Hdraws'].
Qed.

(** X19.  A batch on lists of equal length over a non-empty pool reads the
    clock once per present seeker and draws from the generator once per
    seeker that found a match; the returned mapping has at most as many
    entries as there were matches. *)
Theorem batchMatchEntities_effects (rooms : list (option Entity))
    (pool : list Entity) (userIDs : list string) (cfg : MatchConfig) (w : World) :
  length rooms = length userIDs ->
  pool <> [] ->
  let matches := omap id (batchSelections pool userIDs cfg rooms 0 w) in
  exists m w',
    batchMatchEntities rooms pool userIDs cfg w = (Ret m, w')
    /\ unixClock w' = unixClock w /\ randSource w' = randSource w
    /\ clockReads w' = (clockReads w + length (omap id rooms))%nat
    /\ randDraws w' = (randDraws w + length matches)%nat
    /\ (size m <= length matches)%nat
    /\ (length matches <= length (omap id rooms))%nat.
Proof.
  intros Hlen Hpool. cbv zeta.
  destruct (batchLoop_world pool userIDs cfg rooms 0 ∅ w)
    as (w' & Hloop & Hclock & Hrand & Hreads & Hdraws).
  { intros j Hj. apply lookup_lt_is_Some_2. simpl. lia. }
  eexists _, w'. split.
  { unfold batchMatchEntities.
    destruct (Nat.eqb_spec (length rooms) (length userIDs)); [|contradiction].
    exact Hloop. }
  split; [exact Hclock|]. split; [exact Hrand|]. split.
  { rewrite Hreads. destruct pool; [contradiction|reflexivity]. }
  split; [exact Hdraws|]. split.
  { pose proof (applySelections_size (batchSelections pool userIDs cfg rooms 0 w) ∅)
      as Hsize. rewrite map_size_empty in Hsize. exact Hsize. }
  clear. generalize 0%nat at 1. revert w.
  induction rooms as [|r rooms IH]; intros w i; [reflexivity|].
  cbn [batchSelections]. destruct r as [r|]; [destruct (userIDs !! i) as [userID|]|].
  - destruct (matchEntity_returns r pool userID cfg w) as (matched & w1 & Hm).
    rewrite Hm. specialize (IH w1 (S i)).
    destruct matched; cbn [fmap option_fmap option_map omap list_omap id length] in *; lia.
  - specialize (IH w (S i)). cbn [omap list_omap id length] in *. lia.
  - specialize (IH w (S i)). cbn [omap list_omap id length] in *. lia.
Qed.

Lemma batchMatchEntities_effects_witness :
  let s := mkEntity "s" ∅ ∅ 3 50 80 0 ActivityLow in
  let a := mkEntity "a" ∅ ∅ 3 50 80 12 ActivityHigh in
  let w := mkWorld (fun _ => 1000) 0 (fun k => k) 0 in
  length [Some s; None; Some s] = length ["u1"; "u2"; "u3"]
  /\ [a] <> []
  /\ exists m w',
       batchMatchEntities [Some s; None; Some s] [a] ["u1"; "u2"; "u3"]
         DefaultMatchConfig w = (Ret m, w')
       /\ clockReads w' = 2%nat.
Proof.
  cbv zeta.
  assert (Hlen : length [Some (mkEntity "s" ∅ ∅ 3 50 80 0 ActivityLow); None;
                         Some (mkEntity "s" ∅ ∅ 3 50 80 0 ActivityLow)]
                 = length ["u1"; "u2"; "u3"]) by reflexivity.
  assert (Hpool : [mkEntity "a" ∅ ∅ 3 50 80 12 ActivityHigh] <> []) by discriminate.
  split; [exact Hlen|]. split; [exact Hpool|].
  destruct (batchMatchEntities_effects _ _ _ DefaultMatchConfig
              (mkWorld (fun _ => 1000) 0 (fun k => k) 0) Hlen Hpool)
    as (m & w' & Hrun & _ & _ & Hreads & _).
  exists m, w'. split; [exact Hrun | exact Hreads].
Defined.

(** X20.  When the present seekers of a batch have pairwise distinct IDs,
    the returned mapping holds for every present seeker exactly the outcome
    of its own matcher call: its ID maps to the candidate that call
    returned, and is absent when the call returned none. *)
Theorem batchMatchEntities_distinct_ids (rooms : list (option Entity))
    (pool : list Entity) (userIDs : list string) (cfg : MatchConfig) (w : World) :
  length rooms = length userIDs ->
  (forall i j ri rj, rooms !! i = Some (Some ri) -> rooms !! j = Some (Some rj) ->
                     ID ri = ID rj -> i = j) ->
  let worldAt i := snd (batchLoop pool userIDs cfg (take i rooms) 0 ∅ w) in
  exists m w',
    batchMatchEntities rooms pool userIDs cfg w = (Ret m, w')
    /\ forall i room, rooms !! i = Some (Some room) ->
         exists userID matched wi',
           userIDs !! i = Some userID
           /\ matchEntity room pool userID cfg (worldAt i) = (Ret matched, wi')
           /\ m !! ID room = matched.
Proof.
  intros Hlen Hdistinct. cbv zeta.
  destruct (batchLoop_applies pool userIDs cfg rooms 0 ∅ w) as [w' Hloop].
  eexists _, w'. split.
  { unfold batchMatchEntities.
    destruct (Nat.eqb_spec (length rooms) (length userIDs)); [|contradiction].
    exact Hloop. }
  intros i room Hi.
  destruct (batchSelections_present pool userIDs cfg rooms 0 ∅ w i room Hi)
    as (userID & matched & wi' & Hid & Hm & Hs).
  { intros j Hj. apply lookup_lt_is_Some_2. simpl. lia. }
  exists userID, matched, wi'. split; [exact Hid|]. split; [exact Hm|].
  destruct matched as [c|]; cbn [fmap option_fmap option_map] in Hs.
  - apply applySelections_lookup. left. exists i. split; [exact Hs|].
    intros j k' c' Hlt Hj Hk. subst k'.
    destruct (batchSelections_entry _ _ _ _ _ _ _ _ _ Hj) as [_ (rj & Hrj & Hidj)].
    pose proof (Hdistinct i j room rj Hi Hrj (eq_sym Hidj)). lia.
  - destruct (applySelections (batchSelections pool userIDs cfg rooms 0 w) ∅
                !! ID room) as [c|] eqn:Hk; [|reflexivity].
    exfalso. apply applySelections_lookup in Hk.
    destruct Hk as [(j & Hj & _)|[Hk _]];
      [|rewrite lookup_empty in Hk; discriminate Hk].
    destruct (batchSelections_entry _ _ _ _ _ _ _ _ _ Hj) as [_ (rj & Hrj & Hidj)].
    pose proof (Hdistinct i j room rj Hi Hrj (eq_sym Hidj)). subst j.
    rewrite Hs in Hj. discriminate Hj.
Qed.

Lemma batchMatchEntities_distinct_ids_witness :
  let s := mkEntity "s" ∅ ∅ 3 50 80 0 ActivityLow in
  let t := mkEntity "t" ∅ ∅ 9 50 10 0 ActivityLow in
  let a := mkEntity "a" ∅ ∅ 3 50 80 12 ActivityHigh in
  let w := mkWorld (fun _ => 1000) 0 (fun k => k) 0 in
  length [Some s; Some t] = length ["u1"; "u2"]
  /\ exists m w',
       batchMatchEntities [Some s; Some t] [a] ["u1"; "u2"] DefaultMatchConfig w
       = (Ret m, w')
       /\ exists matched wi', matchEntity s [a] "u1" DefaultMatchConfig w = (Ret matched, wi')
                              /\ m !! "s" = matched.
Proof.
  cbv zeta.
  assert (Hlen : length [Some (mkEntity "s" ∅ ∅ 3 50 80 0 ActivityLow);
                         Some (mkEntity "t" ∅ ∅ 9 50 10 0 ActivityLow)]
                 = length ["u1"; "u2"]) by reflexivity.
  split; [exact Hlen|].
  destruct (batchMatchEntities_distinct_ids _
              [mkEntity "a" ∅ ∅ 3 50 80 12 ActivityHigh] _ DefaultMatchConfig
              (mkWorld (fun _ => 1000) 0 (fun k => k) 0) Hlen)
    as (m & w' & Hrun & Hall).
  { intros [|[|i]] [|[|j]] ri rj Hi Hj Hid; try reflexivity; try discriminate Hi;
      try discriminate Hj; injection Hi as <-; injection Hj as <-; discriminate Hid. }
  exists m, w'. split; [exact Hrun|].
  destruct (Hall 0%nat _ eq_refl) as (userID & matched & wi' & Hid & Hm & Hk).
  injection Hid as <-. exists matched, wi'. split; [exact Hm | exact Hk].
Defined.

(** * The ranking of [printMatchDetails] *)

Lemma validCandidates_filter details :
  validCandidates details = List.filter (fun d => negb (Rejected d)) details.
Proof.
  unfold validCandidates.
  assert (H : forall acc,
    fold_left (fun valid detail =>
                 if negb (Rejected detail) then valid ++ [detail] else valid)
              details acc
    = acc ++ List.filter (fun d => negb (Rejected d)) details).
  { induction details as [|d details IH]; intros acc.
    - simpl. rewrite app_nil_r. reflexivity.
    - cbn [fold_left List.filter]. rewrite IH.
      destruct (negb (Rejected d)); [rewrite <- app_assoc|]; reflexivity. }
  apply (H []).
Qed.

Lemma insert_after_prefix (pre : list MatchDetail) x y l :
  <[length pre := y]> (pre ++ x :: l) = pre ++ y :: l.
Proof. induction pre as [|p pre IH]; [reflexivity|]. simpl. rewrite IH. reflexivity. Qed.

Lemma lookup_after_prefix (pre : list MatchDetail) x l :
  (pre ++ x :: l) !! length pre = Some x.
Proof. induction pre as [|p pre IH]; [reflexivity|]. simpl. exact IH. Qed.

Lemma swapStep_past_end v s k :
  (length v <= S s)%nat -> fold_left swapStep (seq s k) v = v.
Proof.
  revert s. induction k as [|k IH]; intros s Hlen; [reflexivity|].
  cbn [seq fold_left].
  assert (Hstep : swapStep v s = v).
  { unfold swapStep. rewrite (lookup_ge_None_2 v (S s)) by lia.
    destruct (v !! s); reflexivity. }
  rewrite Hstep. apply IH. lia.
Qed.

(** The inner loop from index [length pre] on is a pass over the rest. *)
Lemma swapStep_fold k pre l :
  fold_left swapStep (seq (length pre) k) (pre ++ l) = pre ++ bubble k l.
Proof.
  revert pre l. induction k as [|k IH]; intros pre l; [destruct l; reflexivity|].
  destruct l as [|a [|b rest]].
  - rewrite swapStep_past_end by (rewrite length_app; simpl; lia). reflexivity.
  - rewrite swapStep_past_end by (rewrite length_app; simpl; lia). reflexivity.
  - cbn [seq fold_left bubble].
    assert (Ha : (pre ++ a :: b :: rest) !! length pre = Some a)
      by apply lookup_after_prefix.
    assert (Hb : (pre ++ a :: b :: rest) !! S (length pre) = Some b).
    { replace (pre ++ a :: b :: rest) with ((pre ++ [a]) ++ b :: rest)
        by (rewrite <- app_assoc; reflexivity).
      replace (S (length pre)) with (length (pre ++ [a]))
        by (rewrite length_app; simpl; lia).
      apply lookup_after_prefix. }
    unfold swapStep at 2. rewrite Ha, Hb.
    destruct (Score a <? Score b).
    + rewrite insert_after_prefix.
      replace (pre ++ b :: b :: rest) with ((pre ++ [b]) ++ b :: rest)
        by (rewrite <- app_assoc; reflexivity).
      replace (S (length pre)) with (length (pre ++ [b]))
        by (rewrite length_app; simpl; lia).
      rewrite insert_after_prefix, IH, <- app_assoc. reflexivity.
    + replace (pre ++ a :: b :: rest) with ((pre ++ [a]) ++ b :: rest)
        by (rewrite <- app_assoc; reflexivity).
      replace (S (length pre)) with (length (pre ++ [a]))
        by (rewrite length_app; simpl; lia).
      rewrite IH, <- app_assoc. reflexivity.
Qed.

Lemma bubblePass_bubble v i : bubblePass v i = bubble (length v - 1 - i) v.
Proof. unfold bubblePass. apply (swapStep_fold _ [] v). Qed.

Lemma bubble_perm k l : bubble k l ≡ₚ l.
Proof.
  revert l. induction k as [|k IH]; intros l; [destruct l; reflexivity|].
  destruct l as [|a [|b rest]]; [reflexivity..|].
  cbn [bubble]. destruct (Score a <? Score b).
  - rewrite IH. apply Permutation_swap.
  - rewrite IH. reflexivity.
Qed.

(** A pass over the first [k + 1] elements carries one of least total to
    position [k] and leaves the rest of the list alone. *)
Lemma bubble_split k l :
  (k < length l)%nat ->
  exists p x,
    bubble k l = p ++ x :: drop (S k) l
    /\ p ++ [x] ≡ₚ take (S k) l
    /\ Forall (fun y => Score x <= Score y) p.
Proof.
  revert l. induction k as [|k IH]; intros l Hlen.
  - destruct l as [|a rest]; [simpl in Hlen; lia|].
    exists [], a. split; [destruct rest; reflexivity|]. split; [reflexivity|constructor].
  - destruct l as [|a [|b rest]]; [simpl in Hlen; lia | simpl in Hlen; lia |].
    assert (Hmin : forall (p : list MatchDetail) x c tl,
              p ++ [x] ≡ₚ c :: tl -> Forall (fun y => Score x <= Score y) p ->
              Score x <= Score c).
    { intros p x c tl Hperm Hall.
      assert (Hc : c ∈ p ++ [x]) by (rewrite Hperm; left).
      apply elem_of_app in Hc as [Hc|Hc].
      - rewrite Forall_forall in Hall. apply Hall. exact Hc.
      - apply list_elem_of_singleton in Hc. subst c. lia. }
    cbn [bubble]. destruct (Z.ltb_spec (Score a) (Score b)) as [Hlt|Hge].
    + destruct (IH (a :: rest)) as (p & x & Hb & Hperm & Hall); [simpl in *; lia|].
      exists (b :: p), x. split; [rewrite Hb; reflexivity|]. split.
      * cbn [app take]. cbn [take] in Hperm. rewrite Hperm. apply Permutation_swap.
      * constructor; [|exact Hall].
        pose proof (Hmin p x a _ Hperm Hall). lia.
    + destruct (IH (b :: rest)) as (p & x & Hb & Hperm & Hall); [simpl in *; lia|].
      exists (a :: p), x. split; [rewrite Hb; reflexivity|]. split.
      * cbn [app take]. cbn [take] in Hperm. rewrite Hperm. reflexivity.
      * constructor; [|exact Hall].
        pose proof (Hmin p x b _ Hperm Hall). lia.
Qed.

(** After [i] passes the last [i] elements are in their final place: in
    nonincreasing order and not above anything before them. *)
Lemma bubblePass_invariant v i p s :
  v = p ++ s -> length s = i -> (i < length v)%nat ->
  StronglySorted scoreGe s ->
  Forall (fun y => Forall (fun z => Score z <= Score y) s) p ->
  exists p' x,
    bubblePass v i = p' ++ x :: s
    /\ p' ++ [x] ≡ₚ p
    /\ StronglySorted scoreGe (x :: s)
    /\ Forall (fun y => Forall (fun z => Score z <= Score y) (x :: s)) p'.
Proof.
  intros -> Hs Hlt Hsorted Hbelow.
  rewrite length_app in Hlt.
  rewrite bubblePass_bubble, length_app.
  replace (length p + length s - 1 - i)%nat with (length p - 1)%nat by lia.
  destruct (bubble_split (length p - 1) (p ++ s)) as (p' & x & Hb & Hperm & Hmin).
  { rewrite length_app. lia. }
  replace (S (length p - 1)) with (length p) in Hb, Hperm by lia.
  rewrite drop_app_length in Hb. rewrite take_app_length in Hperm.
  exists p', x. split; [exact Hb|]. split; [exact Hperm|].
  assert (Hx : x ∈ p) by (rewrite <- Hperm; apply elem_of_app; right; left).
  rewrite Forall_forall in Hbelow.
  split.
  - apply StronglySorted_cons. split; [exact (Hbelow x Hx) | exact Hsorted].
  - apply Forall_forall. intros y Hy. constructor.
    + rewrite Forall_forall in Hmin. exact (Hmin y Hy).
    + apply Hbelow. rewrite <- Hperm. apply elem_of_app. left. exact Hy.
Qed.

Lemma sort_passes m :
  forall i v p s,
    v = p ++ s -> length s = i -> (i + m < length v \/ m = 0)%nat ->
    StronglySorted scoreGe s ->
    Forall (fun y => Forall (fun z => Score z <= Score y) s) p ->
    exists p' s',
      fold_left bubblePass (seq i m) v = p' ++ s'
      /\ length s' = (i + m)%nat
      /\ p' ++ s' ≡ₚ v
      /\ StronglySorted scoreGe s'
      /\ Forall (fun y => Forall (fun z => Score z <= Score y) s') p'.
Proof.
  induction m as [|m IH]; intros i v p s Hv Hs Hlt Hsorted Hbelow.
  - exists p, s. cbn [seq fold_left]. rewrite Nat.add_0_r, Hv.
    repeat split; try assumption. reflexivity.
  - destruct Hlt as [Hlt|Hm]; [|discriminate Hm].
    destruct (bubblePass_invariant v i p s Hv Hs ltac:(lia) Hsorted Hbelow)
      as (p1 & x & Hpass & Hperm & Hsorted1 & Hbelow1).
    cbn [seq fold_left].
    assert (Hlen : length (bubblePass v i) = length v).
    { rewrite Hpass, Hv, !length_app. cbn [length].
      apply Permutation_length in Hperm. rewrite length_app in Hperm.
      cbn [length] in Hperm. lia. }
    destruct (IH (S i) (bubblePass v i) p1 (x :: s) Hpass
                ltac:(cbn [length]; lia) ltac:(rewrite Hlen; lia) Hsorted1 Hbelow1)
      as (p' & s' & Hfold & Hs' & Hperm' & Hsorted' & Hbelow').
    exists p', s'. split; [exact Hfold|]. split; [lia|].
    split; [|split; assumption].
    rewrite Hperm', Hpass, Hv.
    change (p1 ++ x :: s) with (p1 ++ [x] ++ s). rewrite app_assoc, Hperm.
    reflexivity.
Qed.

(** The two nested loops sort. *)
Lemma sortByScore_correct (v : list MatchDetail) :
  sortByScore v ≡ₚ v /\ StronglySorted scoreGe (sortByScore v).
Proof.
  unfold sortByScore.
  destruct v as [|d v']; [split; [reflexivity|constructor]|].
  set (v := d :: v').
  destruct (sort_passes (length v - 1) 0 v v []) as (p & s & Hfold & Hs & Hperm & Hsorted & Hbelow).
  - rewrite app_nil_r. reflexivity.
  - reflexivity.
  - left. subst v. cbn [length]. lia.
  - constructor.
  - apply Forall_forall. intros y _. constructor.
  - rewrite Hfold. split; [exact Hperm|].
    assert (Hp : length p = 1%nat).
    { apply Permutation_length in Hperm. rewrite length_app in Hperm.
      subst v. cbn [length] in *. lia. }
    destruct p as [|y [|]]; try discriminate Hp.
    cbn [app]. apply StronglySorted_cons. split; [|exact Hsorted].
    apply Forall_inv in Hbelow. exact Hbelow.
Qed.

(** X21.  The two nested loops of the report sort the valid candidates:
    the result is a rearrangement of the input, of the same length, in
    which no detail is followed, anywhere later, by one with a larger
    total. *)
Theorem sortByScore_sorted_permutation (v : list MatchDetail) :
  sortByScore v ≡ₚ v
  /\ length (sortByScore v) = length v
  /\ forall (i j : nat) (a b : MatchDetail),
       (i < j)%nat -> sortByScore v !! i = Some a -> sortByScore v !! j = Some b ->
       Score b <= Score a.
Proof.
  destruct (sortByScore_correct v) as [Hperm Hsorted].
  split; [exact Hperm|]. split; [apply Permutation_length; exact Hperm|].
  intros i j a b Hlt Ha Hb.
  rewrite <- (take_drop_middle _ _ _ Hb) in Hsorted.
  apply StronglySorted_app in Hsorted as (Hcross & _ & _).
  apply (Hcross a b).
  - apply elem_of_take. exists i. split; [exact Ha | exact Hlt].
  - left.
Qed.

Lemma sortByScore_valid details d :
  d ∈ sortByScore (validCandidates details) <-> In d details /\ Rejected d = false.
Proof.
  rewrite (proj1 (sortByScore_correct _)), validCandidates_filter.
  rewrite list_elem_of_In, filter_In, negb_true_iff. reflexivity.
Qed.


(** What the detailed matcher returns, read off its result. *)
Lemma matchEntityDetailed_result cur pool uid cfg w sel details w' :
  matchEntityDetailed cur pool uid cfg w = (Ret (sel, details), w') ->
  let now := unixClock w (clockReads w) in
  details = map (pairDetail cur uid cfg now) pool
  /\ (sel = None <-> forall c, In c pool -> Rejected (pairDetail cur uid cfg now c) = true)
  /\ (forall c, sel = Some c -> In c (tiedAtMaximum cur pool uid cfg now)).
Proof.
  cbv zeta. rewrite matchEntityDetailed_run. unfold bind.
  destruct (selectAmongTied cur pool uid cfg w) as [[sel0|msg] w0] eqn:Hsel;
    [|discriminate].
  unfold ret. intros H. injection H as <- <- <-.
  split; [reflexivity|]. split.
  - rewrite <- tiedAtMaximum_empty_iff.
    pose proof (selectAmongTied_run cur pool uid cfg w) as Hrun. cbv zeta in Hrun.
    rewrite Hrun in Hsel. clear Hrun.
    destruct pool as [|c0 pool'].
    + injection Hsel as <- _. split; reflexivity.
    + destruct (tiedAtMaximum _ _ _ _ _) as [|t tied] eqn:Ht.
      * injection Hsel as <- _. split; reflexivity.
      * destruct (lookup_draw tied t (randSource w (randDraws w))) as [a Ha].
        rewrite Ha in Hsel. injection Hsel as <- _. split; discriminate.
  - intros c ->. apply (selectAmongTied_sound _ _ _ _ _ _ _ Hsel).
Qed.

(** X23.  When the detailed matcher returns a candidate, the report built
    from its details has a first row, and the total of that row is the
    total of the returned candidate: the match is always among the top
    scorers shown. *)
Theorem displayedCandidates_head_is_match_score
    (cur : Entity) (pool : list Entity) (uid : string) (cfg : MatchConfig)
    (w w' : World) (c : Entity) (details : list MatchDetail) :
  matchEntityDetailed cur pool uid cfg w = (Ret (Some c, details), w') ->
  exists top rest,
    displayedCandidates details = top :: rest
    /\ Score top = Score (pairDetail cur uid cfg (unixClock w (clockReads w)) c).
Proof.
  intros Hrun.
  destruct (matchEntityDetailed_result _ _ _ _ _ _ _ _ Hrun) as (Hdetails & _ & Hsel).
  specialize (Hsel c eq_refl).
  apply tiedAtMaximum_members in Hsel as (Hin & Hacc & Hmax).
  set (pd := pairDetail cur uid cfg (unixClock w (clockReads w))) in *.
  assert (Hc : pd c ∈ sortByScore (validCandidates details)).
  { apply sortByScore_valid. split; [|exact Hacc].
    rewrite Hdetails. apply in_map. exact Hin. }
  unfold displayedCandidates. cbv zeta.
  destruct (sortByScore_correct (validCandidates details)) as [_ Hsorted].
  destruct (sortByScore (validCandidates details)) as [|top sorted] eqn:Hs;
    [inversion Hc|].
  assert (Hcount : displayCount (top :: sorted) = S (Nat.min 4 (length sorted))).
  { unfold displayCount. cbn [length].
    destruct (Nat.ltb_spec 5 (S (length sorted))); lia. }
  rewrite Hcount. cbn [take]. eexists _, _. split; [reflexivity|].
  assert (Htop : top ∈ sortByScore (validCandidates details))
    by (rewrite Hs; left).
  apply sortByScore_valid in Htop as [Htop Htacc].
  rewrite Hdetails in Htop. apply in_map_iff in Htop as (c' & <- & Hin').
  specialize (Hmax c' Hin' Htacc).
  apply StronglySorted_cons in Hsorted as [Hall _].
  apply elem_of_cons in Hc as [Hc|Hc].
  - rewrite Hc. reflexivity.
  - rewrite Forall_forall in Hall. specialize (Hall _ Hc).
    unfold scoreGe in Hall. lia.
Qed.

Lemma displayedCandidates_head_is_match_score_witness :
  let seeker := mkEntity "s" ∅ ∅ 3 50 80 0 ActivityLow in
  let a := mkEntity "a" ∅ ∅ 3 50 80 12 ActivityHigh in
  let b := mkEntity "b" ∅ ∅ 9 50 80 2 ActivityLow in
  let w := mkWorld (fun _ => 1000) 0 (fun k => k) 0 in
  let d := pairDetail seeker "seeker" DefaultMatchConfig 1000 in
  exists w',
    matchEntityDetailed seeker [b; a] "seeker" DefaultMatchConfig w
    = (Ret (Some a, [d b; d a]), w')
    /\ exists top rest, displayedCandidates [d b; d a] = top :: rest
                        /\ Score top = Score (d a).
Proof.
  cbv zeta. eexists (mkWorld (fun _ => 1000) 1 (fun k => k) 1).
  assert (Hrun : matchEntityDetailed (mkEntity "s" ∅ ∅ 3 50 80 0 ActivityLow)
                   [mkEntity "b" ∅ ∅ 9 50 80 2 ActivityLow;
                    mkEntity "a" ∅ ∅ 3 50 80 12 ActivityHigh]
                   "seeker" DefaultMatchConfig (mkWorld (fun _ => 1000) 0 (fun k => k) 0)
                 = (Ret (Some (mkEntity "a" ∅ ∅ 3 50 80 12 ActivityHigh),
                         [pairDetail (mkEntity "s" ∅ ∅ 3 50 80 0 ActivityLow) "seeker"
                            DefaultMatchConfig 1000 (mkEntity "b" ∅ ∅ 9 50 80 2 ActivityLow);
                          pairDetail (mkEntity "s" ∅ ∅ 3 50 80 0 ActivityLow) "seeker"
                            DefaultMatchConfig 1000
                            (mkEntity "a" ∅ ∅ 3 50 80 12 ActivityHigh)]),
                    mkWorld (fun _ => 1000) 1 (fun k => k) 1))
    by (vm_compute; reflexivity).
  split; [exact Hrun|].
  exact (displayedCandidates_head_is_match_score _ _ _ _ _ _ _ _ Hrun).
Defined.

Lemma countOutcomes_counts details :
  countOutcomes details
  = (Z.of_nat (length (List.filter Rejected details)),
     Z.of_nat (length (List.filter (fun d => negb (Rejected d)) details))).
Proof.
  unfold countOutcomes.
  assert (H : forall r v,
    fold_left (fun '(rejectedCount, validCount) detail =>
                 if Rejected detail then (rejectedCount + 1, validCount)
                 else (rejectedCount, validCount + 1)) details (r, v)
    = (r + Z.of_nat (length (List.filter Rejected details)),
       v + Z.of_nat (length (List.filter (fun d => negb (Rejected d)) details)))).
  { induction details as [|d details IH]; intros r v.
    - simpl. f_equal; lia.
    - cbn [fold_left List.filter]. destruct (Rejected d); cbn [negb length];
        rewrite IH; f_equal; lia. }
  rewrite (H 0 0). reflexivity.
Qed.

(** X24.  The statistics [main] derives from the details of a match add
    up: rejected and valid counts are nonnegative, their sum is the size of
    the pool, and the valid count is zero exactly when no candidate was
    returned. *)
Theorem countOutcomes_of_match
    (cur : Entity) (pool : list Entity) (uid : string) (cfg : MatchConfig)
    (w w' : World) (sel : option Entity) (details : list MatchDetail) :
  matchEntityDetailed cur pool uid cfg w = (Ret (sel, details), w') ->
  let rejectedCount := fst (countOutcomes details) in
  let validCount := snd (countOutcomes details) in
  0 <= rejectedCount /\ 0 <= validCount
  /\ rejectedCount + validCount = Z.of_nat (length pool)
  /\ (validCount = 0 <-> sel = None).
Proof.
  intros Hrun. cbv zeta.
  destruct (matchEntityDetailed_result _ _ _ _ _ _ _ _ Hrun) as (Hdetails & Hnone & _).
  rewrite countOutcomes_counts. cbn [fst snd].
  split; [lia|]. split; [lia|]. split.
  - rewrite <- (length_map (pairDetail cur uid cfg (unixClock w (clockReads w))) pool),
      <- Hdetails.
    clear. induction details as [|d details IH]; [reflexivity|].
    cbn [List.filter]. destruct (Rejected d); cbn [negb length]; lia.
  - rewrite Hnone, Hdetails. clear.
    set (pd := pairDetail cur uid cfg (unixClock w (clockReads w))).
    induction pool as [|c pool IH].
    + split; [intros _ c []|reflexivity].
    + cbn [map List.filter]. destruct (Rejected (pd c)) eqn:Hr; cbn [negb length].
      * rewrite IH. split.
        -- intros Hall c' [<-|Hin]; [exact Hr | apply Hall; exact Hin].
        -- intros Hall c' Hin. apply Hall. right. exact Hin.
      * split; [lia|]. intros Hall. rewrite (Hall c) in Hr by (left; reflexivity).
        discriminate Hr.
Qed.

Lemma countOutcomes_of_match_witness :
  let seeker := mkEntity "s" ∅ ∅ 3 50 80 0 ActivityLow in
  let a := mkEntity "a" ∅ ∅ 3 50 80 12 ActivityHigh in
  let blocked := mkEntity "b" ∅ {[ "seeker" ]} 3 50 200 19 ActivityHigh in
  let w := mkWorld (fun _ => 1000) 0 (fun k => k) 0 in
  let w' := mkWorld (fun _ => 1000) 1 (fun k => k) 1 in
  let d := pairDetail seeker "seeker" DefaultMatchConfig 1000 in
  matchEntityDetailed seeker [blocked; a] "seeker" DefaultMatchConfig w
  = (Ret (Some a, [d blocked; d a]), w')
  /\ fst (countOutcomes [d blocked; d a]) + snd (countOutcomes [d blocked; d a]) = 2.
Proof.
  cbv zeta.
  assert (Hrun : matchEntityDetailed (mkEntity "s" ∅ ∅ 3 50 80 0 ActivityLow)
                   [mkEntity "b" ∅ {[ "seeker" ]} 3 50 200 19 ActivityHigh;
                    mkEntity "a" ∅ ∅ 3 50 80 12 ActivityHigh]
                   "seeker" DefaultMatchConfig (mkWorld (fun _ => 1000) 0 (fun k => k) 0)
                 = (Ret (Some (mkEntity "a" ∅ ∅ 3 50 80 12 ActivityHigh),
                         [pairDetail (mkEntity "s" ∅ ∅ 3 50 80 0 ActivityLow) "seeker"
                            DefaultMatchConfig 1000
                            (mkEntity "b" ∅ {[ "seeker" ]} 3 50 200 19 ActivityHigh);
                          pairDetail (mkEntity "s" ∅ ∅ 3 50 80 0 ActivityLow) "seeker"
                            DefaultMatchConfig 1000
                            (mkEntity "a" ∅ ∅ 3 50 80 12 ActivityHigh)]),
                    mkWorld (fun _ => 1000) 1 (fun k => k) 1))
    by (vm_compute; reflexivity).
  split; [exact Hrun|].
  exact (proj1 (proj2 (proj2 (countOutcomes_of_match _ _ _ _ _ _ _ _ Hrun)))).
Defined.

Lemma rejectReasons_fold details (m : gmap string Z) (reason : string) :
  let n := length (List.filter
                     (fun d => Rejected d && bool_decide (RejectReason d = reason))
                     details) in
  fold_left (fun (m : gmap string Z) detail =>
               if Rejected detail
               then <[RejectReason detail := default 0 (m !! RejectReason detail) + 1]> m
               else m)
            details m !! reason
  = match n with
    | O => m !! reason
    | S _ => Some (default 0 (m !! reason) + Z.of_nat n)
    end.
Proof.
  cbv zeta. revert m. induction details as [|d details IH]; intros m; [reflexivity|].
  cbn [fold_left List.filter]. rewrite IH. clear IH.
  destruct (Rejected d); cbn [andb]; [|reflexivity].
  destruct (bool_decide_reflect (RejectReason d = reason)) as [->|Hne].
  - rewrite lookup_insert_eq. cbn [default length]. unfold id.
    destruct (length _); f_equal; lia.
  - rewrite lookup_insert_ne by exact Hne. reflexivity.
Qed.

(** X26.  The histogram printed when nothing was matched holds, for each
    reason, the number of rejected details carrying it, and has no entry
    for a reason that no rejected detail carries. *)
Theorem rejectReasons_counts (details : list MatchDetail) (reason : string) :
  let n := length (List.filter
                     (fun d => Rejected d && bool_decide (RejectReason d = reason))
                     details) in
  rejectReasons details !! reason
  = match n with
    | O => None
    | S _ => Some (Z.of_nat n)
    end.
Proof.
  cbv zeta. unfold rejectReasons. rewrite rejectReasons_fold.
  rewrite lookup_empty. destruct (length _); [reflexivity|].
  cbn [default]. f_equal.
Qed.

(** * Order of the pool *)

Lemma matchEntity_none_iff cur pool uid cfg w sel w' :
  matchEntity cur pool uid cfg w = (Ret sel, w') ->
  sel = None
  <-> forall c, In c pool ->
        Rejected (pairDetail cur uid cfg (unixClock w (clockReads w)) c) = true.
Proof.
  rewrite matchEntity_run. intros Hsel.
  rewrite <- tiedAtMaximum_empty_iff.
  pose proof (selectAmongTied_run cur pool uid cfg w) as Hrun. cbv zeta in Hrun.
  rewrite Hrun in Hsel. clear Hrun.
  destruct pool as [|c0 pool'].
  - injection Hsel as <- _. split; reflexivity.
  - destruct (tiedAtMaximum _ _ _ _ _) as [|t tied] eqn:Ht.
    + injection Hsel as <- _. split; reflexivity.
    + destruct (lookup_draw tied t (randSource w (randDraws w))) as [a Ha].
      rewrite Ha in Hsel. injection Hsel as <- _. split; discriminate.
Qed.

(** X25.  Reordering the pool changes neither whether the matcher finds a
    candidate nor the total of the candidate it returns; only the choice
    among equally good candidates can differ. *)
Theorem matchEntity_pool_order (cur : Entity) (pool pool' : list Entity)
    (uid : string) (cfg : MatchConfig) (w w1 w2 : World) (sel sel' : option Entity) :
  pool ≡ₚ pool' ->
  matchEntity cur pool uid cfg w = (Ret sel, w1) ->
  matchEntity cur pool' uid cfg w = (Ret sel', w2) ->
  let d := pairDetail cur uid cfg (unixClock w (clockReads w)) in
  (sel = None <-> sel' = None)
  /\ forall c c', sel = Some c -> sel' = Some c' -> Score (d c) = Score (d c').
Proof.
  intros Hperm Hrun Hrun'. cbv zeta. split.
  - rewrite (matchEntity_none_iff _ _ _ _ _ _ _ Hrun),
      (matchEntity_none_iff _ _ _ _ _ _ _ Hrun').
    split; intros Hall c Hin; apply Hall.
    + apply (Permutation_in c (Permutation_sym Hperm) Hin).
    + apply (Permutation_in c Hperm Hin).
  - intros c c' -> ->.
    rewrite matchEntity_run in Hrun, Hrun'.
    apply selectAmongTied_sound, tiedAtMaximum_members in Hrun as (Hin & Hacc & Hmax).
    apply selectAmongTied_sound, tiedAtMaximum_members in Hrun' as (Hin' & Hacc' & Hmax').
    pose proof (Hmax c' (Permutation_in c' (Permutation_sym Hperm) Hin') Hacc').
    pose proof (Hmax' c (Permutation_in c Hperm Hin) Hacc).
    lia.
Qed.

Lemma matchEntity_pool_order_witness :
  let seeker := mkEntity "s" ∅ ∅ 3 50 80 0 ActivityLow in
  let a := mkEntity "a" ∅ ∅ 3 50 80 12 ActivityHigh in
  let b := mkEntity "b" ∅ ∅ 3 50 80 12 ActivityHigh in
  let w := mkWorld (fun _ => 1000) 0 (fun k => k) 0 in
  let w' := mkWorld (fun _ => 1000) 1 (fun k => k) 1 in
  let d := pairDetail seeker "seeker" DefaultMatchConfig 1000 in
  [a; b] ≡ₚ [b; a]
  /\ matchEntity seeker [a; b] "seeker" DefaultMatchConfig w = (Ret (Some a), w')
  /\ matchEntity seeker [b; a] "seeker" DefaultMatchConfig w = (Ret (Some b), w')
  /\ Score (d a) = Score (d b).
Proof.
  cbv zeta.
  assert (Hperm : [mkEntity "a" ∅ ∅ 3 50 80 12 ActivityHigh;
                   mkEntity "b" ∅ ∅ 3 50 80 12 ActivityHigh]
                  ≡ₚ [mkEntity "b" ∅ ∅ 3 50 80 12 ActivityHigh;
                      mkEntity "a" ∅ ∅ 3 50 80 12 ActivityHigh])
    by apply Permutation_swap.
  assert (Hrun : matchEntity (mkEntity "s" ∅ ∅ 3 50 80 0 ActivityLow)
                   [mkEntity "a" ∅ ∅ 3 50 80 12 ActivityHigh;
                    mkEntity "b" ∅ ∅ 3 50 80 12 ActivityHigh]
                   "seeker" DefaultMatchConfig (mkWorld (fun _ => 1000) 0 (fun k => k) 0)
                 = (Ret (Some (mkEntity "a" ∅ ∅ 3 50 80 12 ActivityHigh)),
                    mkWorld (fun _ => 1000) 1 (fun k => k) 1))
    by (vm_compute; reflexivity).
  assert (Hrun' : matchEntity (mkEntity "s" ∅ ∅ 3 50 80 0 ActivityLow)
                    [mkEntity "b" ∅ ∅ 3 50 80 12 ActivityHigh;
                     mkEntity "a" ∅ ∅ 3 50 80 12 ActivityHigh]
                    "seeker" DefaultMatchConfig (mkWorld (fun _ => 1000) 0 (fun k => k) 0)
                  = (Ret (Some (mkEntity "b" ∅ ∅ 3 50 80 12 ActivityHigh)),
                     mkWorld (fun _ => 1000) 1 (fun k => k) 1))
    by (vm_compute; reflexivity).
  split; [exact Hperm|]. split; [exact Hrun|]. split; [exact Hrun'|].
  exact (proj2 (matchEntity_pool_order _ _ _ _ _ _ _ _ _ _ Hperm Hrun Hrun') _ _
           eq_refl eq_refl).
Defined.

(** ** Worked values *)

Example ex_reasonCooldown : reasonCooldown 599 = "冷却时间未满（599秒前匹配过）".
Proof. vm_compute. reflexivity. Qed.

Example ex_scoreWaitTime_default :
  map (fun s => scoreWaitTime s DefaultMatchConfig) [20; 30; 60; 61; 80; 300]
  = [0; 1; 4; 4; 8; 52].
Proof. reflexivity. Qed.

Example ex_getMicSegment : map getMicSegment [0; 1; 3; 4; 6; 7; 15; 16; 65535]
                           = [0; 1; 1; 2; 2; 3; 3; 3; 3].
Proof. reflexivity. Qed.
